(** * kiss_ai: the Claude coding agent's permission handler and result extraction

    A shallow embedding of [src/kiss/agents/claudecodingagent/claude_coding_agent.py]:
    the path whitelist test ([_is_subpath]), the tool permission callback
    ([permission_handler]), the constructor, the message loop of [run] with
    its trace, the result parser ([_parse_result_json]) and [main] with its
    final report.

    Python strings are modelled by [string]; a character is a code point
    below 256.  A call returns a value or raises an exception ([outcome]).
    What the host decides is a Section variable: the file system behind
    [Path.resolve] and [Path.mkdir], the JSON decoder, the float printer
    behind [repr].  The
    statements hold for every such host; the examples run on a host without
    symbolic links ([resolve_in]) and on a model of [json.loads]. *)

From Stdlib Require Import ZArith Ascii String List Bool Lia DecimalString.
From stdpp Require Import base gmap strings list.

Set Warnings "-register-all".

Local Open Scope string_scope.
Local Open Scope list_scope.
Local Open Scope nat_scope.

(** ** Characters and strings as Python sees them *)

Definition LF : ascii := Ascii.ascii_of_nat 10.
Definition DQ : ascii := Ascii.ascii_of_nat 34.
Definition nl : string := String LF "".

(** [str.isspace] on one character, which is also the class [\s] of [re]
    for [str] patterns: TAB..CR, FS..US, space, NEL and NBSP. *)
Definition py_isspace (c : ascii) : bool :=
  let n := Ascii.nat_of_ascii c in
  ((9 <=? n) && (n <=? 13)) || ((28 <=? n) && (n <=? 32))
  || (n =? 133) || (n =? 160).

(** [c in s] *)
Fixpoint contains_char (c : ascii) (s : string) : bool :=
  match s with
  | "" => false
  | String c' s' => Ascii.eqb c c' || contains_char c s'
  end.

(** [s[:n]] *)
Fixpoint str_take (n : nat) (s : string) : string :=
  match n, s with
  | S n', String c s' => String c (str_take n' s')
  | _, _ => ""
  end.

(** [s[n:]] *)
Fixpoint str_drop (n : nat) (s : string) : string :=
  match n, s with
  | S n', String _ s' => str_drop n' s'
  | _, _ => s
  end.

(** [s[-n:]] for [n > 0]: the last [n] characters, all of [s] when it is shorter. *)
Definition str_last (n : nat) (s : string) : string :=
  str_drop (String.length s - n) s.

(** [s.replace("\n", "\\n")] *)
Fixpoint replace_newlines (s : string) : string :=
  match s with
  | "" => ""
  | String c s' =>
      if Ascii.eqb c LF then String "\" (String "n" (replace_newlines s'))
      else String c (replace_newlines s')
  end.

Fixpoint lstrip (s : string) : string :=
  match s with
  | String c s' => if py_isspace c then lstrip s' else s
  | "" => ""
  end.

Fixpoint rstrip (s : string) : string :=
  match s with
  | "" => ""
  | String c s' =>
      match rstrip s' with
      | "" => if py_isspace c then "" else String c ""
      | r => String c r
      end
  end.

(** [s.strip()] *)
Definition strip (s : string) : string := rstrip (lstrip s).

(** ** Python values

    What a tool input, a structured output or [json.loads] can hold.  A float
    is kept as the JSON number text it was read from. *)

Inductive value : Type :=
| VNone
| VBool (b : bool)
| VInt (z : Z)
| VFloat (lexeme : string)
| VStr (s : string)
| VList (items : list value)
| VDict (items : list (string * value)).

(** A [dict] with string keys, in insertion order. *)
Definition dict : Type := list (string * value).

(** [d.get(k)]: the value bound to [k], [None] when there is none. *)
Fixpoint dict_get (d : dict) (k : string) : value :=
  match d with
  | [] => VNone
  | (k', v) :: d' => if String.eqb k k' then v else dict_get d' k
  end.

(** [k in d] *)
Fixpoint dict_has (d : dict) (k : string) : bool :=
  match d with
  | [] => false
  | (k', _) :: d' => String.eqb k k' || dict_has d' k
  end.

(** [d[k] = v]: an existing key keeps its place. *)
Fixpoint dict_set (d : dict) (k : string) (v : value) : dict :=
  match d with
  | [] => [(k, v)]
  | (k', v') :: d' =>
      if String.eqb k k' then (k', v) :: d' else (k', v') :: dict_set d' k v
  end.

(** *** Which floats are zero

    A JSON number text [-?int(.frac)?([eE][-+]?exp)?] denotes
    [m * 10^e] for an integer [m]; Python rounds it to the nearest binary64,
    which is zero exactly when [m = 0] or [m * 10^e <= 2^-1075]. *)

Definition is_digit (c : ascii) : bool :=
  let n := Ascii.nat_of_ascii c in (48 <=? n) && (n <=? 57).

Definition digit_val (c : ascii) : Z := Z.of_nat (Ascii.nat_of_ascii c) - 48.

(** Reads a run of digits: its value from accumulator [acc], how many there
    were, and the rest of the text. *)
Fixpoint read_digits (s : string) (acc : Z) (count : nat) : Z * nat * string :=
  match s with
  | String c s' =>
      if is_digit c then read_digits s' (10 * acc + digit_val c)%Z (S count)
      else (acc, count, s)
  | "" => (acc, count, s)
  end.

Definition float_is_zero (lexeme : string) : bool :=
  let body := match lexeme with String "-" r => r | _ => lexeme end in
  let '(ip, ni, r1) := read_digits body 0%Z 0 in
  match ni with
  | O => false
  | _ =>
      let '(m, nf, r2) :=
        match r1 with
        | String "." r => read_digits r ip 0
        | _ => (ip, 0, r1)
        end in
      let ex :=
        match r2 with
        | String c r =>
            if Ascii.eqb c "e" || Ascii.eqb c "E" then
              match r with
              | String "-" r' => (- fst (fst (read_digits r' 0 0)))%Z
              | String "+" r' => fst (fst (read_digits r' 0 0))
              | _ => fst (fst (read_digits r 0 0))
              end
            else 0%Z
        | "" => 0%Z
        end in
      let e := (ex - Z.of_nat nf)%Z in
      (m =? 0)%Z || ((e <? 0)%Z && (m * 2 ^ 1075 <=? 10 ^ (- e))%Z)
  end.

(** [bool(v)] *)
Definition truthy (v : value) : bool :=
  match v with
  | VNone => false
  | VBool b => b
  | VInt z => negb (z =? 0)%Z
  | VFloat l => negb (float_is_zero l)
  | VStr s => negb (String.eqb s "")
  | VList l => match l with [] => false | _ => true end
  | VDict d => match d with [] => false | _ => true end
  end.

(** [a or b] *)
Definition py_or (a b : value) : value := if truthy a then a else b.

(** ** Results and exceptions *)

Inductive exn : Type :=
| TypeError
| ValueError
| JSONDecodeError
| RecursionError
| OSError.

(** What a call comes to: a value returned or an exception raised. *)
Inductive outcome (A : Type) : Type :=
| Return (a : A)
| Raise (e : exn).
Arguments Return {A} a.
Arguments Raise {A} e.

(** Sequencing: an exception ends the computation.  With this instance
    [x ← m; k] runs [m], then [k] on what it returned. *)
#[export] Instance outcome_bind : MBind outcome :=
  fun A B (k : A -> outcome B) (m : outcome A) =>
    match m with
    | Return a => k a
    | Raise e => Raise e
    end.

(** [[f(x) for x in l]], stopping at the first exception. *)
Fixpoint map_outcome {A B : Type} (f : A -> outcome B) (l : list A)
    : outcome (list B) :=
  match l with
  | [] => Return []
  | x :: l' => y ← f x; ys ← map_outcome f l'; Return (y :: ys)
  end.

(** ** Paths

    A resolved [Path] is absolute; it is the list of its components below
    the root, so the root itself is [[]]. *)

Definition Path : Type := list string.

(** [target.parents]: the ancestors, nearest first, the root last. *)
Definition parents (target : Path) : list Path :=
  map (fun n => take n target) (rev (seq 0 (length target))).

(** The words of the specification: [target] lies strictly below [p]. *)
Definition proper_descendant (target p : Path) : Prop :=
  exists rest : Path, rest <> [] /\ target = p ++ rest.

(** [_is_subpath]: [any(target == p or p in target.parents for p in whitelist)] *)
Definition _is_subpath (target : Path) (whitelist : gset Path) : bool :=
  existsb (fun p => bool_decide (target = p) || bool_decide (p ∈ parents target))
          (elements whitelist).

(** The guard both branches of [permission_handler] use:
    [len(whitelist) == 0 or self._is_subpath(target_path, whitelist)]. *)
Definition whitelist_guard (target_path : Path) (whitelist : gset Path) : bool :=
  (size whitelist =? 0) || _is_subpath target_path whitelist.

(** ** The agent and its permission handler *)

Inductive PermissionResult : Type :=
| PermissionResultAllow
| PermissionResultDeny (message : string).

Record ClaudeCodingAgent : Type := {
  model_name : string;
  base_dir : string;
  readable_paths : gset Path;
  writable_paths : gset Path
}.

Section Permission.

(** [Path(s).resolve()]: the canonical absolute form of a path text, as the
    file system and working directory of the host give it, or the exception
    the host raises while it resolves. *)
Variable resolve : string -> outcome Path.

(** [Path(base_dir).mkdir(parents=True, exist_ok=True)]: the host creates
    the directory, or raises. *)
Variable mkdir : string -> outcome unit.

(** [if paths is None: paths = []] *)
Definition or_empty (paths : option (list string)) : list string :=
  match paths with
  | None => []
  | Some l => l
  end.

(** [__init__]: the base directory is created, then both whitelists are
    resolved, once, the readable one first. *)
Definition init (model : string) (readable writable : option (list string))
    (base : string) : outcome ClaudeCodingAgent :=
  let readable := or_empty readable in
  let writable := or_empty writable in
  _ ← mkdir base;
  rs ← map_outcome resolve readable;
  ws ← map_outcome resolve writable;
  Return {| model_name := model;
            base_dir := base;
            readable_paths := list_to_set rs;
            writable_paths := list_to_set ws |}.

(** [tool_name in [...]] *)
Definition name_in (tool_name : string) (names : list string) : bool :=
  existsb (String.eqb tool_name) names.

(** [permission_handler]; its [context] argument is not used by the body.
    [Path(path_str)] raises [TypeError] on a value that is not a string, and
    [resolve] may raise as well. *)
Definition permission_handler (self : ClaudeCodingAgent)
    (tool_name : string) (tool_input : dict) : outcome PermissionResult :=
  let path_str := py_or (dict_get tool_input "file_path")
                        (dict_get tool_input "path") in
  if negb (truthy path_str) then Return PermissionResultAllow
  else
    match path_str with
    | VStr s =>
        target_path ← resolve s;
        if name_in tool_name ["Read"; "Grep"; "Glob"] then
          if whitelist_guard target_path (readable_paths self) then
            Return PermissionResultAllow
          else
            Return (PermissionResultDeny
                      ("Access Denied: " +:+ s +:+ " is not in readable whitelist."))
        else if name_in tool_name ["Write"; "Edit"; "MultiEdit"] then
          if whitelist_guard target_path (writable_paths self) then
            Return PermissionResultAllow
          else
            Return (PermissionResultDeny
                      ("Access Denied: " +:+ s +:+ " is not in writable whitelist."))
        else Return PermissionResultAllow
    | _ => Raise TypeError
    end.

End Permission.

(** *** A host without symbolic links

    On a file system with no symbolic links, [resolve] is textual: a path
    that does not start with [/] continues the working directory, empty and
    [.] components vanish, and [..] steps up (the root is its own parent).
    A text that holds a NUL character is refused with [ValueError].  A text
    that starts with exactly two slashes has a root of its own in [pathlib]
    and is not covered. *)

Fixpoint split_slash (s : string) (cur : string) : list string :=
  match s with
  | "" => [cur]
  | String c s' =>
      if Ascii.eqb c "/" then cur :: split_slash s' ""
      else split_slash s' (cur +:+ String c "")
  end.

Definition walk (p : Path) (component : string) : Path :=
  if String.eqb component "" || String.eqb component "." then p
  else if String.eqb component ".." then removelast p
  else p ++ [component].

Definition resolve_in (cwd : Path) (s : string) : outcome Path :=
  if contains_char (Ascii.ascii_of_nat 0) s then Raise ValueError
  else
    let start := match s with String "/" _ => [] | _ => cwd end in
    Return (fold_left walk (split_slash s "") start).

(** ** Regular expressions, as [re] matches them

    The fragment the source needs: literal text, sequence, the greedy [?],
    and the greedy and lazy stars of a character class.  Matching is by
    backtracking with priorities, as in [re]: [rmatch r s k] hands every way
    of matching [r] at the start of [s] to the continuation [k], the
    preferred way first, and stops at the first one [k] accepts. *)

Inductive regex : Type :=
| Lit (text : string)
| Seq (r1 r2 : regex)
| Opt (r : regex)
| Star (class : ascii -> bool)
| StarLazy (class : ascii -> bool).

Fixpoint drop_prefix (p s : string) : option string :=
  match p, s with
  | "", _ => Some s
  | String a p', String b s' => if Ascii.eqb a b then drop_prefix p' s' else None
  | String _ _, "" => None
  end.

Section Matching.

Context {R : Type}.

Fixpoint star_greedy (class : ascii -> bool) (s : string)
    (k : string -> option R) : option R :=
  match s with
  | String c s' =>
      if class c then
        match star_greedy class s' k with
        | Some x => Some x
        | None => k s
        end
      else k s
  | "" => k s
  end.

Fixpoint star_lazy (class : ascii -> bool) (s : string)
    (k : string -> option R) : option R :=
  match k s with
  | Some x => Some x
  | None =>
      match s with
      | String c s' => if class c then star_lazy class s' k else None
      | "" => None
      end
  end.

Fixpoint rmatch (r : regex) (s : string) (k : string -> option R) : option R :=
  match r with
  | Lit text =>
      match drop_prefix text s with
      | Some s' => k s'
      | None => None
      end
  | Seq r1 r2 => rmatch r1 s (fun s' => rmatch r2 s' k)
  | Opt r' =>
      match rmatch r' s k with
      | Some x => Some x
      | None => k s
      end
  | Star class => star_greedy class s k
  | StarLazy class => star_lazy class s k
  end.

End Matching.

(** A pattern with one capturing group, which every match goes through:
    [before(inside)after]. *)
Record pattern : Type := {
  before : regex;
  inside : regex;
  after : regex
}.

(** [re.match(p, s).group(1)] *)
Definition match_group (p : pattern) (s : string) : option string :=
  rmatch (before p) s (fun s1 =>
    rmatch (inside p) s1 (fun s2 =>
      rmatch (after p) s2 (fun _ =>
        Some (str_take (String.length s1 - String.length s2) s1)))).

(** [re.search(p, s).group(1)]: the match at the leftmost position that has one. *)
Fixpoint search_group (p : pattern) (s : string) : option string :=
  match match_group p s with
  | Some g => Some g
  | None =>
      match s with
      | String _ s' => search_group p s'
      | "" => None
      end
  end.

Definition any_char (c : ascii) : bool := true.

(** The pattern of [_parse_result_json], compiled with [re.DOTALL]:
    three backquotes, [(?:json)?], [\s*], [\n?], [(.*?)], [\n?],
    three backquotes. *)
Definition fence_re : pattern :=
  {| before := Seq (Lit "```") (Seq (Opt (Lit "json"))
                 (Seq (Star py_isspace) (Opt (Lit nl))));
     inside := StarLazy any_char;
     after := Seq (Opt (Lit nl)) (Lit "```") |}.

(** ** [json.loads]

    The decoder of Python's [json] module with its default hooks, on the
    texts [string] can hold.  An escape [\uXXXX] above U+00FF names a
    character outside [string]; the decoder is not defined there and the
    statements below do not evaluate it on such a text.  Nor is the depth
    of nesting at which the interpreter gives up with [RecursionError]
    modelled: it depends on the host. *)

Definition json_ws (c : ascii) : bool :=
  let n := Ascii.nat_of_ascii c in
  (n =? 32) || (n =? 9) || (n =? 10) || (n =? 13).

Fixpoint skip_ws (s : string) : string :=
  match s with
  | String c s' => if json_ws c then skip_ws s' else s
  | "" => ""
  end.

Definition hex_val (c : ascii) : option nat :=
  let n := Ascii.nat_of_ascii c in
  if (48 <=? n) && (n <=? 57) then Some (n - 48)
  else if (97 <=? n) && (n <=? 102) then Some (n - 87)
  else if (65 <=? n) && (n <=? 70) then Some (n - 55)
  else None.

Definition hex4 (a b c d : ascii) : option nat :=
  match hex_val a, hex_val b, hex_val c, hex_val d with
  | Some x, Some y, Some z, Some w => Some (((x * 16 + y) * 16 + z) * 16 + w)
  | _, _, _, _ => None
  end.

(** The character an escape letter stands for ([BACKSLASH] in [json.decoder]). *)
Definition unescape (c : ascii) : option ascii :=
  let n := Ascii.nat_of_ascii c in
  if n =? 34 then Some c
  else if n =? 92 then Some c
  else if n =? 47 then Some c
  else if n =? 98 then Some (Ascii.ascii_of_nat 8)
  else if n =? 102 then Some (Ascii.ascii_of_nat 12)
  else if n =? 110 then Some (Ascii.ascii_of_nat 10)
  else if n =? 114 then Some (Ascii.ascii_of_nat 13)
  else if n =? 116 then Some (Ascii.ascii_of_nat 9)
  else None.

(** [scanstring] in strict mode, from just after the opening quote: the
    decoded text and what follows the closing quote. *)
Fixpoint scanstring (s : string) : option (string * string) :=
  match s with
  | "" => None
  | String c s' =>
      let n := Ascii.nat_of_ascii c in
      if n =? 34 then Some ("", s')
      else if n =? 92 then
        match s' with
        | String e s'' =>
            if Ascii.eqb e "u" then
              match s'' with
              | String a (String b (String c' (String d rest))) =>
                  match hex4 a b c' d with
                  | Some u =>
                      if u <? 256 then
                        match scanstring rest with
                        | Some (t, r) => Some (String (Ascii.ascii_of_nat u) t, r)
                        | None => None
                        end
                      else None
                  | None => None
                  end
              | _ => None
              end
            else
              match unescape e with
              | Some x =>
                  match scanstring s'' with
                  | Some (t, r) => Some (String x t, r)
                  | None => None
                  end
              | None => None
              end
        | "" => None
        end
      else if n <? 32 then None
      else
        match scanstring s' with
        | Some (t, r) => Some (String c t, r)
        | None => None
        end
  end.

(** [NUMBER_RE] at the start of [s]: an optional minus sign, then [0] or a
    run of digits that does not start with [0], then an optional fraction (a
    dot and digits) and an optional exponent ([e] or [E], an optional sign,
    digits).  Each part gives the text it matched and the rest; a part that
    does not match in full matches nothing. *)
Fixpoint take_digits (s : string) : string * string :=
  match s with
  | String c s' =>
      if is_digit c then let '(d, r) := take_digits s' in (String c d, r)
      else ("", s)
  | "" => ("", "")
  end.

Definition number_sign (s : string) : string * string :=
  match s with
  | String c r => if Ascii.eqb c "-" then ("-", r) else ("", s)
  | "" => ("", s)
  end.

Definition number_int (s : string) : option (string * string) :=
  match s with
  | String c r =>
      if Ascii.eqb c "0" then Some ("0", r)
      else if is_digit c then Some (take_digits s)
      else None
  | "" => None
  end.

Definition number_frac (s : string) : string * string :=
  match s with
  | String c r =>
      if Ascii.eqb c "." then
        match take_digits r with
        | ("", _) => ("", s)
        | (d, r') => ("." +:+ d, r')
        end
      else ("", s)
  | "" => ("", s)
  end.

Definition number_exp (s : string) : string * string :=
  match s with
  | String c r =>
      if Ascii.eqb c "e" || Ascii.eqb c "E" then
        let '(sg, r') :=
          match r with
          | String c' q =>
              if Ascii.eqb c' "-" then ("-", q)
              else if Ascii.eqb c' "+" then ("+", q)
              else ("", r)
          | "" => ("", r)
          end in
        match take_digits r' with
        | ("", _) => ("", s)
        | (d, q) => (String c sg +:+ d, q)
        end
      else ("", s)
  | "" => ("", s)
  end.

(** The matched text, whether it has a fraction or an exponent, and the
    rest. *)
Definition match_number (s : string) : option (string * bool * string) :=
  let '(sign, s0) := number_sign s in
  match number_int s0 with
  | None => None
  | Some (ip, r1) =>
      let '(frac, r2) := number_frac r1 in
      let '(ex, r3) := number_exp r2 in
      Some (sign +:+ ip +:+ frac +:+ ex,
            negb (String.eqb frac "") || negb (String.eqb ex ""), r3)
  end.

(** [int(text)] for an optional minus sign and digits. *)
Definition int_of_text (t : string) : Z :=
  match t with
  | String "-" r => (- fst (fst (read_digits r 0 0)))%Z
  | _ => fst (fst (read_digits t 0 0))
  end.

(** The most digits [int] reads from a text ([sys.get_int_max_str_digits()],
    by default); beyond it the conversion raises [ValueError]. *)
Definition int_max_str_digits : nat := 4300.

(** The value of a number text: a float when it has a fraction or an
    exponent, else an int. *)
Definition number_value (t : string) (is_float : bool) : outcome value :=
  if is_float then Return (VFloat t)
  else
    let digits := match t with String "-" r => r | _ => t end in
    if int_max_str_digits <? String.length digits then Raise ValueError
    else Return (VInt (int_of_text t)).

(** [scan_once], [JSONArray] and [JSONObject].  A text that is not JSON
    raises [JSONDecodeError].  Every call uses one unit of [fuel]; a lack of
    fuel shows as [RecursionError], and [json_loads] gives enough for the
    whole text never to meet it. *)
Fixpoint scan_once (fuel : nat) (s : string) : outcome (value * string) :=
  match fuel with
  | O => Raise RecursionError
  | S fuel' =>
      match s with
      | "" => Raise JSONDecodeError
      | String c r =>
          let n := Ascii.nat_of_ascii c in
          if n =? 34 then
            match scanstring r with
            | Some (t, r') => Return (VStr t, r')
            | None => Raise JSONDecodeError
            end
          else if n =? 123 then
            match skip_ws r with
            | String c' r' =>
                if Ascii.eqb c' "}" then Return (VDict [], r')
                else if Ascii.eqb c' DQ then object_items fuel' r' []
                else Raise JSONDecodeError
            | "" => Raise JSONDecodeError
            end
          else if n =? 91 then
            match skip_ws r with
            | String c' r' =>
                if Ascii.eqb c' "]" then Return (VList [], r')
                else array_items fuel' (String c' r') []
            | "" => array_items fuel' "" []
            end
          else
            match drop_prefix "null" s, drop_prefix "true" s,
                  drop_prefix "false" s with
            | Some r', _, _ => Return (VNone, r')
            | _, Some r', _ => Return (VBool true, r')
            | _, _, Some r' => Return (VBool false, r')
            | _, _, _ =>
                match match_number s with
                | Some (t, is_float, r') =>
                    v ← number_value t is_float; Return (v, r')
                | None =>
                    match drop_prefix "NaN" s, drop_prefix "Infinity" s,
                          drop_prefix "-Infinity" s with
                    | Some r', _, _ => Return (VFloat "NaN", r')
                    | _, Some r', _ => Return (VFloat "Infinity", r')
                    | _, _, Some r' => Return (VFloat "-Infinity", r')
                    | _, _, _ => Raise JSONDecodeError
                    end
                end
            end
      end
  end

(** The items of an array from the start of an item; [acc] holds the
    earlier ones, last first. *)
with array_items (fuel : nat) (s : string) (acc : list value)
    : outcome (value * string) :=
  match fuel with
  | O => Raise RecursionError
  | S fuel' =>
      '(v, r) ← scan_once fuel' s;
      match skip_ws r with
      | String c r' =>
          if Ascii.eqb c "]" then Return (VList (rev (v :: acc)), r')
          else if Ascii.eqb c "," then array_items fuel' (skip_ws r') (v :: acc)
          else Raise JSONDecodeError
      | "" => Raise JSONDecodeError
      end
  end

(** The members of an object from just after the opening quote of a key;
    [acc] is the [dict] so far. *)
with object_items (fuel : nat) (s : string) (acc : dict)
    : outcome (value * string) :=
  match fuel with
  | O => Raise RecursionError
  | S fuel' =>
      match scanstring s with
      | Some (key, r) =>
          match skip_ws r with
          | String c r1 =>
              if Ascii.eqb c ":" then
                '(v, r2) ← scan_once fuel' (skip_ws r1);
                let acc' := dict_set acc key v in
                match skip_ws r2 with
                | String c2 r3 =>
                    if Ascii.eqb c2 "}" then Return (VDict acc', r3)
                    else if Ascii.eqb c2 "," then
                      match skip_ws r3 with
                      | String c' r4 =>
                          if Ascii.eqb c' DQ then object_items fuel' r4 acc'
                          else Raise JSONDecodeError
                      | "" => Raise JSONDecodeError
                      end
                    else Raise JSONDecodeError
                | "" => Raise JSONDecodeError
                end
              else Raise JSONDecodeError
          | "" => Raise JSONDecodeError
          end
      | None => Raise JSONDecodeError
      end
  end.

(** [json.loads(s)]: one value between optional white space, and nothing else. *)
Definition json_loads (s : string) : outcome value :=
  '(v, r) ← scan_once (2 * String.length s + 2) (skip_ws s);
  match skip_ws r with
  | "" => Return v
  | _ => Raise JSONDecodeError
  end.

(** *** Writing Python literals

    [lit] reads a text the way the examples of the specification write it:
    backslash-n is a line feed, two backslashes are one, and a single quote
    is a double quote. *)
Fixpoint lit (s : string) : string :=
  match s with
  | "" => ""
  | String c s' =>
      if Ascii.eqb c "'" then String DQ (lit s')
      else if Ascii.eqb c "\" then
        match s' with
        | String "n" s'' => String LF (lit s'')
        | String "\" s'' => String "\" (lit s'')
        | _ => String c (lit s')
        end
      else String c (lit s')
  end.

(** ** [repr] and [str] *)

Definition hex_digit (n : nat) : ascii :=
  if n <? 10 then Ascii.ascii_of_nat (48 + n) else Ascii.ascii_of_nat (87 + n).

(** [str.isprintable] on one character. *)
Definition py_isprintable (c : ascii) : bool :=
  let n := Ascii.nat_of_ascii c in
  ((32 <=? n) && (n <=? 126)) || ((161 <=? n) && negb (n =? 173)).

Fixpoint repr_chars (quote : ascii) (s : string) : string :=
  match s with
  | "" => ""
  | String c s' =>
      let n := Ascii.nat_of_ascii c in
      let rest := repr_chars quote s' in
      if Ascii.eqb c quote || Ascii.eqb c "\" then String "\" (String c rest)
      else if n =? 9 then String "\" (String "t" rest)
      else if n =? 10 then String "\" (String "n" rest)
      else if n =? 13 then String "\" (String "r" rest)
      else if py_isprintable c then String c rest
      else String "\" (String "x" (String (hex_digit (n / 16))
                                     (String (hex_digit (n mod 16)) rest)))
  end.

(** [repr] of a [str]: single quotes, unless the text has one and no double
    quote. *)
Definition repr_str (s : string) : string :=
  let quote := if contains_char "'" s && negb (contains_char DQ s)
               then DQ else "'"%char in
  String quote (repr_chars quote s) +:+ String quote "".

Definition repr_int (z : Z) : string :=
  DecimalString.NilZero.string_of_int (Z.to_int z).

Section Repr.

(** [repr] of the float a JSON number text denotes. *)
Variable float_repr : string -> string.

Fixpoint py_repr (v : value) : string :=
  match v with
  | VNone => "None"
  | VBool true => "True"
  | VBool false => "False"
  | VInt z => repr_int z
  | VFloat l => float_repr l
  | VStr s => repr_str s
  | VList l => "[" +:+ String.concat ", " (map py_repr l) +:+ "]"
  | VDict d =>
      "{" +:+ String.concat ", "
                (map (fun kv => repr_str (fst kv) +:+ ": " +:+ py_repr (snd kv)) d)
          +:+ "}"
  end.

(** [str(v)] *)
Definition py_str (v : value) : string :=
  match v with
  | VStr s => s
  | _ => py_repr v
  end.

End Repr.

(** ** Messages of the agent stream

    The blocks and messages of the SDK, with the fields [run] reads.  The
    content of a [ToolResultBlock] is a text, a list of blocks or [None]; its
    [is_error] is a [bool] or [None].  A [UserMessage] whose content is a
    plain text has no block for [run] to show and is one with no blocks. *)

Inductive ContentBlock : Type :=
| TextBlock (text : string)
| ToolUseBlock (name : string) (input : dict)
| ToolResultBlock (content : value) (is_error : option bool)
| OtherBlock.

Inductive Message : Type :=
| AssistantMessage (content : list ContentBlock)
| UserMessage (content : list ContentBlock)
| ResultMessage (structured_output : value) (result : option string)
| OtherMessage.


Section Result.

(** [json.loads]: the decoded value, or the exception raised; a text that
    is not JSON raises [JSONDecodeError].  What follows holds for any
    decoder; [json_loads] above is the one the examples run. *)
Variable loads : string -> outcome value.

(** The result [_parse_result_json] falls back on. *)
Definition basic_result (result : string) : value :=
  VDict [("status", VBool true); ("summary", VStr (str_take 500 result));
         ("insights", VStr "")].

(** The end of [_parse_result_json]: the whole text as JSON, else the basic
    result.  Only [JSONDecodeError] is caught. *)
Definition parse_raw_json (result : string) : outcome value :=
  match loads (strip result) with
  | Raise JSONDecodeError => Return (basic_result result)
  | r => r
  end.

(** [_parse_result_json] *)
Definition _parse_result_json (result : string) : outcome value :=
  match search_group fence_re result with
  | Some g =>
      match loads (strip g) with
      | Raise JSONDecodeError => parse_raw_json result
      | r => r
      end
  | None => parse_raw_json result
  end.

(** What one message of the loop of [run] does to [final_result]. *)
Definition next_result (final_result : value) (message : Message)
    : outcome value :=
  match message with
  | ResultMessage structured_output result =>
      match structured_output with
      | VNone =>
          match result with
          | Some text =>
              if truthy (VStr text) then _parse_result_json text
              else Return final_result
          | None => Return final_result
          end
      | _ => Return structured_output
      end
  | _ => Return final_result
  end.

(** The [extract] of the specification: what [run] returns for a stream
    that is one [ResultMessage]; [Return VNone] is the absent result. *)
Definition extract (structured_output : value) (raw_text : option string)
    : outcome value :=
  next_result VNone (ResultMessage structured_output raw_text).

End Result.

Section Trace.

Variable float_repr : string -> string.

(** The line [run] prints for a [ToolUseBlock]. *)
Definition tool_use_line (name : string) (input : dict) : string :=
  let args_str :=
    String.concat ", "
      (map (fun kv => fst kv +:+ "=" +:+ str_take 50 (py_repr float_repr (snd kv)))
           input) in
  "[TOOL] " +:+ name +:+ "(" +:+ args_str +:+ ")".

(** What [run] shows of the content of a [ToolResultBlock]. *)
Definition tool_result_display (content : value) : string :=
  match content with
  | VStr s =>
      let display :=
        if 200 <? String.length s
        then str_take 100 s +:+ "..." +:+ str_last 100 s
        else s in
      replace_newlines display
  | _ =>
      let content_str := py_str float_repr content in
      str_take 100 content_str +:+ "..." +:+ str_last 100 content_str
  end.

(** [is_error] is a [bool] or [None]. *)
Definition tool_result_status (is_error : option bool) : string :=
  match is_error with
  | Some true => "ERROR"
  | _ => "OK"
  end.

(** The line [run] prints for a [ToolResultBlock]. *)
Definition tool_result_line (content : value) (is_error : option bool) : string :=
  "  -> [" +:+ tool_result_status is_error +:+ "] " +:+ tool_result_display content.

Definition assistant_block_lines (block : ContentBlock) : list string :=
  match block with
  | ToolUseBlock name input => [tool_use_line name input]
  | TextBlock text => ["Claude: " +:+ text]
  | _ => []
  end.

Definition user_block_lines (block : ContentBlock) : list string :=
  match block with
  | ToolResultBlock content is_error => [tool_result_line content is_error]
  | _ => []
  end.

(** What one message of the loop of [run] prints. *)
Definition message_lines (message : Message) : list string :=
  match message with
  | AssistantMessage content => concat (map assistant_block_lines content)
  | UserMessage content => concat (map user_block_lines content)
  | _ => []
  end.

End Trace.

(** The state of the loop of [run]: the lines printed so far and
    [final_result]. *)
Record run_state : Type := {
  printed : list string;
  final_result : value
}.

Section Run.

Variable loads : string -> outcome value.
Variable float_repr : string -> string.

(** The loop of [run] from state [st]: the lines printed in the end, and
    the value returned or the exception that ended the loop. *)
Fixpoint run_from (st : run_state) (messages : list Message)
    : list string * outcome value :=
  match messages with
  | [] => (printed st, Return (final_result st))
  | message :: rest =>
      let lines := printed st ++ message_lines float_repr message in
      match next_result loads (final_result st) message with
      | Return r => run_from {| printed := lines; final_result := r |} rest
      | Raise e => (lines, Raise e)
      end
  end.

(** [run], on the messages the query yields. *)
Definition run (messages : list Message) : list string * outcome value :=
  run_from {| printed := []; final_result := VNone |} messages.

End Run.

(** The call raised nothing but [JSONDecodeError], if it raised. *)
Definition only_decode_error (r : outcome value) : Prop :=
  forall e, r = Raise e -> e = JSONDecodeError.

(** The outcome of a scan of [s] is not a lack of fuel, and what it leaves
    is shorter than [s]. *)
Definition consumes (res : outcome (value * string)) (s : string) : Prop :=
  res <> Raise RecursionError /\
  forall v r, res = Return (v, r) -> String.length r < String.length s.

(** ** The examples

    An agent that may read below [/srv/data] and write below [/srv/out], on
    a host without symbolic links that works in [/home/agent] and lets every
    directory be created. *)
Definition host_resolve : string -> outcome Path :=
  resolve_in ["home"; "agent"].

Definition host_mkdir (base : string) : outcome unit :=
  if contains_char (Ascii.ascii_of_nat 0) base then Raise ValueError
  else Return tt.

Definition guarded_agent : ClaudeCodingAgent :=
  {| model_name := "claude-sonnet-4-5";
     base_dir := "/home/agent";
     readable_paths := {[ ["srv"; "data"] ]};
     writable_paths := {[ ["srv"; "out"] ]} |}.

(** [c * n] *)
Fixpoint str_repeat (c : ascii) (n : nat) : string :=
  match n with
  | O => ""
  | S n' => String c (str_repeat c n')
  end.

(** ** Words for the fenced block *)







(** The continuation refuses every text without a backquote. *)
Definition refuses_plain {R : Type} (k : string -> option R) : Prop :=
  forall s, contains_char "`" s = false -> k s = None.

(** ** [main]: the run and the final report *)

(** What [main] can raise besides the exceptions of a call: the [KeyError]
    of a missing key. *)
Inductive report_exn : Type :=
| KeyError (key : string)
| Raised (e : exn).

(** [result[key]]: a [dict] gives the value bound to [key] or raises
    [KeyError]; a list, a text and a number raise [TypeError] on a text
    index. *)
Definition subscript (result : value) (key : string) : report_exn + value :=
  match result with
  | VDict d => if dict_has d key then inr (dict_get d key) else inl (KeyError key)
  | _ => inl (Raised TypeError)
  end.

(** [isinstance(message, ResultMessage)] *)
Definition is_result_message (message : Message) : bool :=
  match message with
  | ResultMessage _ _ => true
  | _ => false
  end.

Section Report.

Variable float_repr : string -> string.

(** One [print(f"LABEL: {result[key]}")] after the lines printed so far:
    the lines printed then, and the exception if the subscript raised. *)
Definition report_line (result : value) (label key : string)
    (lines : list string) : list string * option report_exn :=
  match subscript result key with
  | inr v => (lines ++ [label +:+ ": " +:+ py_str float_repr v], None)
  | inl e => (lines, Some e)
  end.

(** The end of [main]: [if result:] and its four prints. *)
Definition final_report (result : value) : list string * option report_exn :=
  if truthy result then
    match report_line result "SUCCESS" "status"
            [nl +:+ "--- FINAL AGENT REPORT ---"] with
    | (lines1, None) =>
        match report_line result "SUMMARY" "summary" lines1 with
        | (lines2, None) => report_line result "INSIGHTS" "insights" lines2
        | stopped => stopped
        end
    | stopped => stopped
    end
  else ([], None).

End Report.

(** [str(p)] of a resolved path. *)
Definition path_text (p : Path) : string :=
  match p with
  | [] => "/"
  | _ => String.concat "" (map (fun component => "/" +:+ component) p)
  end.

Section Main.

Variable resolve : string -> outcome Path.
Variable mkdir : string -> outcome unit.
Variable loads : string -> outcome value.
Variable float_repr : string -> string.

(** [main], for the artifact directory of the configuration and the
    messages the query yields: everything printed, and the exception that
    ended it, if one did. *)
Definition main (artifact_dir : string) (messages : list Message)
    : list string * option report_exn :=
  match resolve artifact_dir with
  | Raise e => ([], Some (Raised e))
  | Return project_root =>
      match init resolve mkdir "claude-sonnet-4-5" (Some ["workdir"])
              (Some ["workdir"]) (path_text project_root) with
      | Raise e => ([], Some (Raised e))
      | Return agent =>
          match run loads float_repr messages with
          | (trace, Raise e) => (trace, Some (Raised e))
          | (trace, Return result) =>
              let '(lines, stopped) := final_report float_repr result in
              (trace ++ lines, stopped)
          end
      end
  end.

End Main.

(** * Properties *)

(** ** The whitelist test *)

Lemma parents_spec (target p : Path) :
  p ∈ parents target <-> proper_descendant target p.
Proof.
  unfold parents, proper_descendant.
  rewrite list_elem_of_In, in_map_iff. split.
  - intros (n & <- & Hn). apply in_rev in Hn. apply in_seq in Hn.
    exists (drop n target). split.
    + intros Hnil. apply (f_equal length) in Hnil.
      rewrite length_drop in Hnil. simpl in Hnil. lia.
    + symmetry. apply take_drop.
  - intros (rest & Hrest & ->). exists (length p). split.
    + by rewrite take_app_length.
    + apply in_rev. rewrite rev_involutive. apply in_seq.
      rewrite length_app. destruct rest; [done | simpl; lia].
Qed.

Lemma _is_subpath_spec (target : Path) (whitelist : gset Path) :
  _is_subpath target whitelist = true <->
  exists p, p ∈ whitelist /\ (target = p \/ proper_descendant target p).
Proof.
  unfold _is_subpath. rewrite existsb_exists. split.
  - intros (p & Hin & Hp). exists p. split.
    + apply elem_of_elements. by apply list_elem_of_In.
    + apply orb_true_iff in Hp as [Hp | Hp]; apply bool_decide_eq_true in Hp.
      * by left.
      * right. by apply parents_spec.
  - intros (p & Hin & Hp). exists p. split.
    + apply list_elem_of_In. by apply elem_of_elements.
    + apply orb_true_iff. destruct Hp as [Hp | Hp].
      * left. by apply bool_decide_eq_true.
      * right. apply bool_decide_eq_true. by apply parents_spec.
Qed.

Lemma whitelist_guard_spec (target : Path) (whitelist : gset Path) :
  whitelist_guard target whitelist = true <->
  whitelist = ∅ \/ target ∈ whitelist \/
  exists p, p ∈ whitelist /\ proper_descendant target p.
Proof.
  unfold whitelist_guard. rewrite orb_true_iff, Nat.eqb_eq, _is_subpath_spec.
  split.
  - intros [Hsz | (p & Hin & [-> | Hp])].
    + left. by apply size_empty_inv, leibniz_equiv in Hsz.
    + right. by left.
    + right. right. by exists p.
  - intros [-> | [Hin | (p & Hin & Hp)]].
    + left. apply size_empty.
    + right. exists target. auto.
    + right. exists p. auto.
Qed.

(** On a whitelist of one directory. *)
Lemma whitelist_guard_singleton (target R : Path) :
  whitelist_guard target {[R]} = true <->
  target = R \/ proper_descendant target R.
Proof.
  rewrite whitelist_guard_spec. split.
  - intros [Hemp | [Hin | (p & Hin & Hp)]].
    + exfalso. assert (R ∈ (∅ : gset Path)) by (rewrite <- Hemp; set_solver).
      set_solver.
    + left. set_solver.
    + right. apply elem_of_singleton in Hin. by subst.
  - intros [-> | Hp].
    + right. left. set_solver.
    + right. right. exists R. split; [set_solver | done].
Qed.

(** C1: the guard of the permission layer,
    [len(scope) == 0 or _is_subpath(resolved P, scope)], holds exactly when
    the scope is empty, or the canonical form of [P] is a member of the
    scope, or it is a proper descendant of a member. *)
Theorem is_allowed_iff (resolve : string -> outcome Path) (P : string)
    (target : Path) (S : gset Path) :
  resolve P = Return target ->
  (whitelist_guard target S = true <->
   S = ∅ \/ target ∈ S \/ exists R, R ∈ S /\ proper_descendant target R).
Proof. intros _. apply whitelist_guard_spec. Qed.

Lemma is_allowed_iff_witness :
  whitelist_guard ["srv"; "data"; "in"; "a.csv"] {[ ["srv"; "data"] ]} = true <->
  {[ ["srv"; "data"] ]} = (∅ : gset Path) \/
  ["srv"; "data"; "in"; "a.csv"] ∈ ({[ ["srv"; "data"] ]} : gset Path) \/
  exists R, R ∈ ({[ ["srv"; "data"] ]} : gset Path) /\
            proper_descendant ["srv"; "data"; "in"; "a.csv"] R.
Proof.
  apply (is_allowed_iff host_resolve "/srv/data/in/../in/a.csv"). reflexivity.
Defined.

(** ** The permission handler *)

Lemma bind_return {A B : Type} (a : A) (k : A -> outcome B) :
  (Return a ≫= k) = k a.
Proof. reflexivity. Qed.

Lemma bind_raise {A B : Type} (e : exn) (k : A -> outcome B) :
  (Raise e ≫= k) = Raise e.
Proof. reflexivity. Qed.

Lemma name_in_spec (tool_name : string) (names : list string) :
  name_in tool_name names = true <-> tool_name ∈ names.
Proof.
  unfold name_in. rewrite existsb_exists, list_elem_of_In. split.
  - intros (x & Hin & Heq). apply String.eqb_eq in Heq. by subst.
  - intros Hin. exists tool_name. split; [done | apply String.eqb_refl].
Qed.

Lemma dict_get_absent (d : dict) (k : string) :
  dict_has d k = false -> dict_get d k = VNone.
Proof.
  induction d as [| [k' v] d IH]; simpl; [done |].
  intros H. apply orb_false_iff in H as [Hk Hd]. rewrite Hk. auto.
Qed.

Lemma truthy_text (s : string) : truthy (VStr s) = true <-> s <> "".
Proof.
  simpl. rewrite negb_true_iff. split.
  - intros H ->. discriminate.
  - intros H. apply String.eqb_neq. done.
Qed.

Section HandlerFacts.

Variable resolve : string -> outcome Path.
Variable self : ClaudeCodingAgent.

(** A falsy candidate: the handler allows before it looks at the tool. *)
Lemma handler_falsy (tool_name : string) (tool_input : dict) :
  truthy (py_or (dict_get tool_input "file_path") (dict_get tool_input "path")) = false ->
  permission_handler resolve self tool_name tool_input = Return PermissionResultAllow.
Proof. intros H. unfold permission_handler. by rewrite H. Qed.

(** A read tool with a text candidate is decided by the readable whitelist. *)
Lemma handler_read (tool_name : string) (tool_input : dict) (P : string)
    (target : Path) :
  P <> "" ->
  py_or (dict_get tool_input "file_path") (dict_get tool_input "path") = VStr P ->
  resolve P = Return target ->
  tool_name ∈ ["Read"; "Grep"; "Glob"] ->
  permission_handler resolve self tool_name tool_input =
  if whitelist_guard target (readable_paths self)
  then Return PermissionResultAllow
  else Return (PermissionResultDeny
                 ("Access Denied: " +:+ P +:+ " is not in readable whitelist.")).
Proof.
  intros HP Hcand Hres Hin. unfold permission_handler. rewrite Hcand.
  apply truthy_text in HP. rewrite HP. simpl negb. cbv iota.
  rewrite Hres, bind_return. apply name_in_spec in Hin. by rewrite Hin.
Qed.

(** A write tool with a text candidate is decided by the writable whitelist. *)
Lemma handler_write (tool_name : string) (tool_input : dict) (P : string)
    (target : Path) :
  P <> "" ->
  py_or (dict_get tool_input "file_path") (dict_get tool_input "path") = VStr P ->
  resolve P = Return target ->
  tool_name ∈ ["Write"; "Edit"; "MultiEdit"] ->
  permission_handler resolve self tool_name tool_input =
  if whitelist_guard target (writable_paths self)
  then Return PermissionResultAllow
  else Return (PermissionResultDeny
                 ("Access Denied: " +:+ P +:+ " is not in writable whitelist.")).
Proof.
  intros HP Hcand Hres Hin. unfold permission_handler. rewrite Hcand.
  apply truthy_text in HP. rewrite HP. simpl negb. cbv iota.
  rewrite Hres.
  assert (name_in tool_name ["Read"; "Grep"; "Glob"] = false) as Hr.
  { repeat (apply elem_of_cons in Hin as [-> | Hin]; [reflexivity |]).
    by apply elem_of_nil in Hin. }
  apply name_in_spec in Hin. by rewrite bind_return, Hr, Hin.
Qed.

(** A tool of neither category whose candidate is a text that resolves is
    allowed. *)
Lemma handler_other_text (tool_name : string) (tool_input : dict) (P : string)
    (target : Path) :
  py_or (dict_get tool_input "file_path") (dict_get tool_input "path") = VStr P ->
  resolve P = Return target ->
  tool_name ∉ ["Read"; "Grep"; "Glob"] ->
  tool_name ∉ ["Write"; "Edit"; "MultiEdit"] ->
  permission_handler resolve self tool_name tool_input = Return PermissionResultAllow.
Proof.
  intros Hcand Hres Hr Hw. unfold permission_handler. rewrite Hcand.
  destruct (negb (truthy (VStr P))); [done |].
  rewrite Hres, bind_return.
  destruct (name_in tool_name ["Read"; "Grep"; "Glob"]) eqn:E1.
  { apply name_in_spec in E1. done. }
  destruct (name_in tool_name ["Write"; "Edit"; "MultiEdit"]) eqn:E2.
  { apply name_in_spec in E2. done. }
  done.
Qed.

(** A truthy candidate that is not a text makes [Path(...)] raise, whatever
    the tool. *)
Lemma handler_not_text (tool_name : string) (tool_input : dict) :
  let path_str := py_or (dict_get tool_input "file_path") (dict_get tool_input "path") in
  truthy path_str = true ->
  (forall s, path_str <> VStr s) ->
  permission_handler resolve self tool_name tool_input = Raise TypeError.
Proof.
  intros path_str Ht Hs. unfold permission_handler. fold path_str.
  rewrite Ht. simpl negb. cbv iota.
  destruct path_str; try done. by destruct (Hs s).
Qed.

(** A text candidate that the host refuses to resolve makes the handler
    raise, whatever the tool. *)
Lemma handler_unresolved (tool_name : string) (tool_input : dict) (P : string)
    (e : exn) :
  P <> "" ->
  py_or (dict_get tool_input "file_path") (dict_get tool_input "path") = VStr P ->
  resolve P = Raise e ->
  permission_handler resolve self tool_name tool_input = Raise e.
Proof.
  intros HP Hcand Hres. unfold permission_handler. rewrite Hcand.
  apply truthy_text in HP. rewrite HP. simpl negb. cbv iota.
  by rewrite Hres.
Qed.

End HandlerFacts.

(** C2 (as amended): for every non-empty path text [P] that the input
    carries as its candidate and that resolves, and every directory [R], a
    read tool ([Read], [Grep], [Glob]) with read whitelist [{R}] is allowed
    when the canonical form of [P] is [R] or below [R], and is otherwise
    denied with the message [Access Denied: P is not in readable whitelist.];
    a write tool ([Write], [Edit], [MultiEdit]) with write whitelist [{R}]
    likewise, with [writable] in the message.  The other whitelist does not
    matter. *)
Theorem scoped_tool_decision (resolve : string -> outcome Path)
    (model base : string) (tool : string) (tool_input : dict) (P : string)
    (target R : Path) (other : gset Path) :
  P <> "" ->
  py_or (dict_get tool_input "file_path") (dict_get tool_input "path") = VStr P ->
  resolve P = Return target ->
  (tool ∈ ["Read"; "Grep"; "Glob"] ->
   let self := {| model_name := model; base_dir := base;
                  readable_paths := {[R]}; writable_paths := other |} in
   (target = R \/ proper_descendant target R ->
    permission_handler resolve self tool tool_input = Return PermissionResultAllow) /\
   (~ (target = R \/ proper_descendant target R) ->
    permission_handler resolve self tool tool_input =
    Return (PermissionResultDeny
              ("Access Denied: " +:+ P +:+ " is not in readable whitelist.")))) /\
  (tool ∈ ["Write"; "Edit"; "MultiEdit"] ->
   let self := {| model_name := model; base_dir := base;
                  readable_paths := other; writable_paths := {[R]} |} in
   (target = R \/ proper_descendant target R ->
    permission_handler resolve self tool tool_input = Return PermissionResultAllow) /\
   (~ (target = R \/ proper_descendant target R) ->
    permission_handler resolve self tool tool_input =
    Return (PermissionResultDeny
              ("Access Denied: " +:+ P +:+ " is not in writable whitelist.")))).
Proof.
  intros HP Hcand Hres. split; intros Hin self.
  - rewrite (handler_read resolve self tool tool_input P target HP Hcand Hres Hin).
    simpl readable_paths. split; intros H.
    + apply whitelist_guard_singleton in H. by rewrite H.
    + destruct (whitelist_guard target {[R]}) eqn:E; [| done].
      apply whitelist_guard_singleton in E. done.
  - rewrite (handler_write resolve self tool tool_input P target HP Hcand Hres Hin).
    simpl writable_paths. split; intros H.
    + apply whitelist_guard_singleton in H. by rewrite H.
    + destruct (whitelist_guard target {[R]}) eqn:E; [| done].
      apply whitelist_guard_singleton in E. done.
Qed.

Lemma scoped_tool_decision_witness :
  permission_handler host_resolve
    {| model_name := "m"; base_dir := "/home/agent";
       readable_paths := {[ ["srv"; "data"] ]}; writable_paths := ∅ |}
    "Read" [("file_path", VStr "/etc/passwd")] =
  Return (PermissionResultDeny
            "Access Denied: /etc/passwd is not in readable whitelist.").
Proof.
  refine (proj2 (proj1 (scoped_tool_decision host_resolve "m" "/home/agent"
                          "Read" [("file_path", VStr "/etc/passwd")]
                          "/etc/passwd" ["etc"; "passwd"] ["srv"; "data"] ∅
                          _ _ _) _) _).
  - discriminate.
  - reflexivity.
  - reflexivity.
  - repeat constructor.
  - intros [H | (rest & _ & H)]; discriminate.
Defined.

(** C2 (the claim as stated fails): the empty path text resolves to the
    working directory, which is neither the readable directory nor below
    it, and [Read] is allowed all the same. *)
Lemma empty_path_is_not_denied :
  host_resolve "" = Return ["home"; "agent"] /\
  ["home"; "agent"] <> ["srv"; "data"] /\
  ~ proper_descendant ["home"; "agent"] ["srv"; "data"] /\
  permission_handler host_resolve
    {| model_name := "m"; base_dir := "/home/agent";
       readable_paths := {[ ["srv"; "data"] ]}; writable_paths := ∅ |}
    "Read" [("file_path", VStr "")] = Return PermissionResultAllow.
Proof.
  split; [| split; [| split]].
  - reflexivity.
  - discriminate.
  - intros (rest & _ & H). discriminate.
  - reflexivity.
Qed.

(** C3: a tool input that binds neither [file_path] nor [path] is allowed,
    for every tool name and every pair of whitelists: the handler returns
    allow, so neither a denial nor an exception. *)
Theorem no_path_parameter_allows (resolve : string -> outcome Path)
    (self : ClaudeCodingAgent) (tool : string) (tool_input : dict) :
  dict_has tool_input "file_path" = false ->
  dict_has tool_input "path" = false ->
  permission_handler resolve self tool tool_input = Return PermissionResultAllow.
Proof.
  intros Hf Hp. apply handler_falsy.
  by rewrite (dict_get_absent _ _ Hf), (dict_get_absent _ _ Hp).
Qed.

Lemma no_path_parameter_allows_witness :
  permission_handler host_resolve guarded_agent "Write"
    [("content", VStr "x"); ("target", VStr "/etc/passwd")] =
  Return PermissionResultAllow.
Proof.
  apply (no_path_parameter_allows host_resolve guarded_agent "Write"
           [("content", VStr "x"); ("target", VStr "/etc/passwd")]);
    reflexivity.
Defined.

(** C4 (the code at the failing input): [Bash] is in neither category,
    yet with a number under [path] the handler does not return allow:
    [Path(5)] raises [TypeError] before the tool name is looked at.  So it
    is for every tool and every candidate that is truthy and not a text. *)
Theorem unrestricted_tool_type_error (resolve : string -> outcome Path)
    (self : ClaudeCodingAgent) :
  name_in "Bash" ["Read"; "Grep"; "Glob"] = false /\
  name_in "Bash" ["Write"; "Edit"; "MultiEdit"] = false /\
  permission_handler resolve self "Bash"
    [("command", VStr "ls"); ("path", VInt 5)] = Raise TypeError /\
  (forall (tool : string) (tool_input : dict),
     let path_str := py_or (dict_get tool_input "file_path")
                           (dict_get tool_input "path") in
     truthy path_str = true ->
     (forall s, path_str <> VStr s) ->
     permission_handler resolve self tool tool_input = Raise TypeError).
Proof.
  repeat split. intros tool tool_input. apply handler_not_text.
Qed.

(** A tool of neither category is allowed whenever its candidate is absent,
    falsy or a text that resolves, whatever the whitelists hold. *)
Theorem unrestricted_tool_allows (resolve : string -> outcome Path)
    (self : ClaudeCodingAgent) (tool : string) (tool_input : dict) :
  tool ∉ ["Read"; "Grep"; "Glob"] ->
  tool ∉ ["Write"; "Edit"; "MultiEdit"] ->
  let path_str := py_or (dict_get tool_input "file_path")
                        (dict_get tool_input "path") in
  truthy path_str = false \/
  (exists P target, path_str = VStr P /\ resolve P = Return target) ->
  permission_handler resolve self tool tool_input = Return PermissionResultAllow.
Proof.
  intros Hr Hw path_str [Hf | (P & target & HP & Hres)].
  - by apply handler_falsy.
  - by apply handler_other_text with P target.
Qed.

Lemma unrestricted_tool_allows_witness :
  permission_handler host_resolve guarded_agent "Bash"
    [("command", VStr "rm -rf /"); ("path", VStr "/etc")] =
  Return PermissionResultAllow.
Proof.
  apply (unrestricted_tool_allows host_resolve guarded_agent "Bash"
           [("command", VStr "rm -rf /"); ("path", VStr "/etc")]).
  - intros H. repeat (apply elem_of_cons in H as [H | H]; [discriminate |]).
    by apply elem_of_nil in H.
  - intros H. repeat (apply elem_of_cons in H as [H | H]; [discriminate |]).
    by apply elem_of_nil in H.
  - right. by exists "/etc", ["etc"].
Defined.

(** On the host of the examples a path text that holds a NUL character
    does not resolve, and the handler raises for [Bash] as for any tool. *)
Lemma unresolved_path_raises :
  permission_handler host_resolve guarded_agent "Bash"
    [("path", VStr (String (Ascii.ascii_of_nat 0) ""))] = Raise ValueError.
Proof. reflexivity. Qed.

(** C10: whatever the tool and the whitelists, an input whose [file_path]
    and [path] are both falsy (absent, [None], the empty text, ...) is
    allowed without a whitelist check; and when [file_path] is a text that is
    not empty, it is the path checked, whatever [path] holds: a read tool is
    allowed or denied as the readable whitelist holds the resolved
    [file_path] or not, a write tool as the writable whitelist does, the
    denial names [file_path], and a tool of neither category is allowed.
    In all, a truthy [file_path] makes the handler do what it does on the
    input that binds [file_path] alone. *)
Theorem falsy_paths_allow_and_file_path_first (resolve : string -> outcome Path)
    (self : ClaudeCodingAgent) (tool : string) (tool_input : dict) :
  (truthy (dict_get tool_input "file_path") = false ->
   truthy (dict_get tool_input "path") = false ->
   permission_handler resolve self tool tool_input = Return PermissionResultAllow) /\
  (forall (P : string) (target : Path),
     dict_get tool_input "file_path" = VStr P -> P <> "" ->
     resolve P = Return target ->
     (tool ∈ ["Read"; "Grep"; "Glob"] ->
      (whitelist_guard target (readable_paths self) = true ->
       permission_handler resolve self tool tool_input =
         Return PermissionResultAllow) /\
      (whitelist_guard target (readable_paths self) = false ->
       permission_handler resolve self tool tool_input =
         Return (PermissionResultDeny
                   ("Access Denied: " +:+ P +:+ " is not in readable whitelist.")))) /\
     (tool ∈ ["Write"; "Edit"; "MultiEdit"] ->
      (whitelist_guard target (writable_paths self) = true ->
       permission_handler resolve self tool tool_input =
         Return PermissionResultAllow) /\
      (whitelist_guard target (writable_paths self) = false ->
       permission_handler resolve self tool tool_input =
         Return (PermissionResultDeny
                   ("Access Denied: " +:+ P +:+ " is not in writable whitelist.")))) /\
     (tool ∉ ["Read"; "Grep"; "Glob"] -> tool ∉ ["Write"; "Edit"; "MultiEdit"] ->
      permission_handler resolve self tool tool_input =
        Return PermissionResultAllow)) /\
  (truthy (dict_get tool_input "file_path") = true ->
   permission_handler resolve self tool tool_input =
   permission_handler resolve self tool
     [("file_path", dict_get tool_input "file_path")]).
Proof.
  split; [| split].
  - intros Hf Hp. apply handler_falsy. unfold py_or. by rewrite Hf.
  - intros P target HP Hne Hres.
    assert (py_or (dict_get tool_input "file_path") (dict_get tool_input "path") =
            VStr P) as Hc.
    { unfold py_or. rewrite HP. apply truthy_text in Hne. by rewrite Hne. }
    split; [| split].
    + intros Ht. rewrite (handler_read resolve self tool tool_input P target
                            Hne Hc Hres Ht).
      split; by intros ->.
    + intros Ht. rewrite (handler_write resolve self tool tool_input P target
                            Hne Hc Hres Ht).
      split; by intros ->.
    + intros Hr Hw. by apply (handler_other_text resolve self tool tool_input P target).
  - intros Hf. unfold permission_handler. simpl dict_get. unfold py_or.
    by rewrite Hf.
Qed.

Lemma falsy_paths_allow_and_file_path_first_witness :
  permission_handler host_resolve guarded_agent "Write"
    [("file_path", VStr ""); ("path", VNone)] = Return PermissionResultAllow /\
  permission_handler host_resolve guarded_agent "Write"
    [("file_path", VStr "/etc/passwd"); ("path", VStr "/srv/out/a.txt")] =
  Return (PermissionResultDeny
            "Access Denied: /etc/passwd is not in writable whitelist.") /\
  permission_handler host_resolve guarded_agent "Write"
    [("file_path", VStr "/srv/out/a.txt"); ("path", VStr "/etc/passwd")] =
  Return PermissionResultAllow.
Proof.
  split; [| split].
  - apply (proj1 (falsy_paths_allow_and_file_path_first host_resolve
                    guarded_agent "Write"
                    [("file_path", VStr ""); ("path", VNone)]));
      reflexivity.
  - refine (proj2 (proj1 (proj2 (proj1 (proj2
              (falsy_paths_allow_and_file_path_first host_resolve guarded_agent
                 "Write"
                 [("file_path", VStr "/etc/passwd");
                  ("path", VStr "/srv/out/a.txt")]))
              "/etc/passwd" ["etc"; "passwd"] _ _ _)) _) _).
    + reflexivity.
    + discriminate.
    + reflexivity.
    + repeat constructor.
    + reflexivity.
  - refine (proj1 (proj1 (proj2 (proj1 (proj2
              (falsy_paths_allow_and_file_path_first host_resolve guarded_agent
                 "Write"
                 [("file_path", VStr "/srv/out/a.txt");
                  ("path", VStr "/etc/passwd")]))
              "/srv/out/a.txt" ["srv"; "out"; "a.txt"] _ _ _)) _) _).
    + reflexivity.
    + discriminate.
    + reflexivity.
    + repeat constructor.
    + reflexivity.
Defined.

(** ** The JSON decoder *)

Lemma skip_ws_length (s : string) : String.length (skip_ws s) <= String.length s.
Proof.
  induction s as [| c s IH]; [done |].
  cbn [skip_ws]. destruct (json_ws c); simpl; lia.
Qed.

Lemma scanstring_length (s t r : string) :
  scanstring s = Some (t, r) -> String.length r < String.length s.
Proof.
  remember (String.length s) as n eqn:Hn. revert s t r Hn.
  induction n as [n IHn] using lt_wf_ind. intros s t r -> H.
  assert (forall s' t' r', String.length s' < String.length s ->
            scanstring s' = Some (t', r') ->
            String.length r' < String.length s') as IH.
  { intros s' t' r' Hlt. by apply (IHn _ Hlt). }
  clear IHn. destruct s as [| c s]; [done |].
  cbn [scanstring] in H.
  destruct (Ascii.nat_of_ascii c =? 34).
  { injection H as _ <-. simpl. lia. }
  destruct (Ascii.nat_of_ascii c =? 92).
  { destruct s as [| e s]; [done |].
    destruct (Ascii.eqb e "u").
    - destruct s as [| a [| b [| c' [| d rest]]]]; try done.
      destruct (hex4 a b c' d) as [u |]; [| done].
      destruct (u <? 256); [| done].
      destruct (scanstring rest) as [[t' r'] |] eqn:E; [| done].
      injection H as _ <-. apply IH in E; simpl in *; lia.
    - destruct (unescape e); [| done].
      destruct (scanstring s) as [[t' r'] |] eqn:E; [| done].
      injection H as _ <-. apply IH in E; simpl in *; lia. }
  destruct (Ascii.nat_of_ascii c <? 32); [done |].
  destruct (scanstring s) as [[t' r'] |] eqn:E; [| done].
  injection H as _ <-. apply IH in E; simpl in *; lia.
Qed.

Lemma take_digits_length (s d r : string) :
  take_digits s = (d, r) -> String.length d + String.length r = String.length s.
Proof.
  revert d r. induction s as [| c s IH]; intros d r H.
  - injection H as <- <-. done.
  - cbn [take_digits] in H. destruct (is_digit c).
    + destruct (take_digits s) as [d' r'] eqn:E. injection H as <- <-.
      specialize (IH _ _ eq_refl). simpl. lia.
    + injection H as <- <-. simpl. lia.
Qed.


Lemma number_sign_length (s sign s0 : string) :
  number_sign s = (sign, s0) -> String.length s0 <= String.length s.
Proof.
  destruct s as [| c r]; simpl; [by intros [= <- <-] |].
  destruct (Ascii.eqb c "-"); intros [= <- <-]; simpl; lia.
Qed.

Lemma number_int_length (s ip r : string) :
  number_int s = Some (ip, r) -> String.length r < String.length s.
Proof.
  destruct s as [| c s']; [done |]. cbn [number_int].
  destruct (Ascii.eqb c "0"); [intros [= <- <-]; simpl; lia |].
  destruct (is_digit c) eqn:Ed; [| done].
  cbn [take_digits]. rewrite Ed.
  destruct (take_digits s') as [d r'] eqn:E. intros [= <- <-].
  apply take_digits_length in E. simpl. lia.
Qed.

Lemma number_frac_length (s frac r : string) :
  number_frac s = (frac, r) -> String.length r <= String.length s.
Proof.
  destruct s as [| c s']; [by intros [= <- <-] |]. cbn [number_frac].
  destruct (Ascii.eqb c "."); [| by intros [= <- <-]].
  destruct (take_digits s') as [d r'] eqn:E. apply take_digits_length in E.
  destruct d; intros [= <- <-]; simpl in *; lia.
Qed.

Lemma number_exp_length (s ex r : string) :
  number_exp s = (ex, r) -> String.length r <= String.length s.
Proof.
  destruct s as [| c s']; [by intros [= <- <-] |]. cbn [number_exp].
  destruct (Ascii.eqb c "e" || Ascii.eqb c "E"); [| by intros [= <- <-]].
  assert (forall sg r', (match s' with
                         | String c' q =>
                             if Ascii.eqb c' "-" then ("-", q)
                             else if Ascii.eqb c' "+" then ("+", q)
                             else ("", s')
                         | "" => ("", s')
                         end) = (sg, r') ->
                        String.length r' <= String.length s') as Hsg.
  { intros sg r'. destruct s' as [| c' q]; [by intros [= <- <-] |].
    destruct (Ascii.eqb c' "-"); [intros [= <- <-]; simpl; lia |].
    destruct (Ascii.eqb c' "+"); intros [= <- <-]; simpl; lia. }
  destruct (match s' with String c' q => _ | "" => _ end) as [sg r'].
  specialize (Hsg _ _ eq_refl).
  destruct (take_digits r') as [d q] eqn:E. apply take_digits_length in E.
  destruct d; intros [= <- <-]; simpl in *; lia.
Qed.

Lemma match_number_length (s t r : string) (b : bool) :
  match_number s = Some (t, b, r) -> String.length r < String.length s.
Proof.
  unfold match_number.
  destruct (number_sign s) as [sign s0] eqn:E0. apply number_sign_length in E0.
  destruct (number_int s0) as [[ip r1] |] eqn:E1; [| done].
  apply number_int_length in E1.
  destruct (number_frac r1) as [frac r2] eqn:E2. apply number_frac_length in E2.
  destruct (number_exp r2) as [ex r3] eqn:E3. apply number_exp_length in E3.
  intros [= _ _ <-]. lia.
Qed.

Lemma drop_prefix_length (p s r : string) :
  drop_prefix p s = Some r -> String.length r + String.length p = String.length s.
Proof.
  revert s. induction p as [| a p IH]; intros s.
  - simpl. intros [= <-]. lia.
  - destruct s as [| b s]; [done |]. simpl.
    destruct (Ascii.eqb a b); [| done]. intros H. apply IH in H. simpl. lia.
Qed.

(** *** Enough fuel *)

Lemma consumes_raise (e : exn) (s : string) :
  e <> RecursionError -> consumes (Raise e) s.
Proof. intros H. split; [congruence | done]. Qed.

Lemma consumes_return (v : value) (r s : string) :
  String.length r < String.length s -> consumes (Return (v, r)) s.
Proof. intros H. split; [done |]. by intros v' r' [= _ <-]. Qed.

Lemma consumes_weaken (res : outcome (value * string)) (s s' : string) :
  consumes res s -> String.length s <= String.length s' -> consumes res s'.
Proof.
  intros [H1 H2] Hle. split; [done |].
  intros v r Hr. specialize (H2 v r Hr). lia.
Qed.

Lemma fuel_is_enough (fuel : nat) :
  (forall s, 2 * String.length s + 1 <= fuel -> s <> "" ->
             consumes (scan_once fuel s) s) /\
  (forall s acc, 2 * String.length s + 2 <= fuel ->
                 forall s0, String.length s < String.length s0 ->
                 consumes (array_items fuel s acc) s0) /\
  (forall s acc, 2 * String.length s + 2 <= fuel ->
                 forall s0, String.length s < String.length s0 ->
                 consumes (object_items fuel s acc) s0).
Proof.
  induction fuel as [| fuel (IHs & IHa & IHo)].
  { repeat split; intros; lia. }
  split; [| split].
  - intros s Hf Hs. destruct s as [| c r]; [done |].
    cbn [scan_once]. simpl String.length in Hf.
    destruct (Ascii.nat_of_ascii c =? 34).
    { destruct (scanstring r) as [[t r'] |] eqn:E;
        [| by apply consumes_raise].
      apply scanstring_length in E. apply consumes_return. simpl. lia. }
    pose proof (skip_ws_length r) as Hws.
    destruct (Ascii.nat_of_ascii c =? 123).
    { destruct (skip_ws r) as [| c' r']; [by apply consumes_raise |].
      simpl in Hws.
      destruct (Ascii.eqb c' "}"); [apply consumes_return; simpl; lia |].
      destruct (Ascii.eqb c' DQ); [| by apply consumes_raise].
      apply IHo; simpl; lia. }
    destruct (Ascii.nat_of_ascii c =? 91).
    { destruct (skip_ws r) as [| c' r'].
      - apply IHa; simpl; lia.
      - simpl in Hws.
        destruct (Ascii.eqb c' "]"); [apply consumes_return; simpl; lia |].
        apply IHa; simpl; lia. }
    destruct (drop_prefix "null" (String c r)) as [r' |] eqn:E1.
    { apply drop_prefix_length in E1. apply consumes_return. simpl in *. lia. }
    destruct (drop_prefix "true" (String c r)) as [r' |] eqn:E2.
    { apply drop_prefix_length in E2. apply consumes_return. simpl in *. lia. }
    destruct (drop_prefix "false" (String c r)) as [r' |] eqn:E3.
    { apply drop_prefix_length in E3. apply consumes_return. simpl in *. lia. }
    destruct (match_number (String c r)) as [[[t is_float] r'] |] eqn:E4.
    { apply match_number_length in E4. unfold number_value.
      destruct is_float; [by apply consumes_return |].
      destruct (int_max_str_digits <? _);
        [by apply consumes_raise | by apply consumes_return]. }
    destruct (drop_prefix "NaN" (String c r)) as [r' |] eqn:E5.
    { apply drop_prefix_length in E5. apply consumes_return. simpl in *. lia. }
    destruct (drop_prefix "Infinity" (String c r)) as [r' |] eqn:E6.
    { apply drop_prefix_length in E6. apply consumes_return. simpl in *. lia. }
    destruct (drop_prefix "-Infinity" (String c r)) as [r' |] eqn:E7.
    { apply drop_prefix_length in E7. apply consumes_return. simpl in *. lia. }
    by apply consumes_raise.
  - intros s acc Hf s0 Hs0. cbn [array_items].
    destruct s as [| c0 s'] eqn:Es.
    { destruct fuel; [lia |]. by apply consumes_raise. }
    rewrite <- Es in *.
    assert (s <> "") as Hne by (by subst s).
    destruct (IHs s ltac:(lia) Hne) as [Hrec Hlen].
    destruct (scan_once fuel s) as [[v r] | e];
      [| rewrite bind_raise; apply consumes_raise; congruence].
    specialize (Hlen v r eq_refl). rewrite bind_return. cbv beta iota.
    pose proof (skip_ws_length r) as Hws.
    destruct (skip_ws r) as [| c r']; [by apply consumes_raise |].
    simpl in Hws.
    destruct (Ascii.eqb c "]"); [apply consumes_return; lia |].
    destruct (Ascii.eqb c ","); [| by apply consumes_raise].
    pose proof (skip_ws_length r') as Hws'.
    apply IHa; lia.
  - intros s acc Hf s0 Hs0. cbn [object_items].
    destruct (scanstring s) as [[key r] |] eqn:E; [| by apply consumes_raise].
    apply scanstring_length in E.
    pose proof (skip_ws_length r) as Hws.
    destruct (skip_ws r) as [| c r1]; [by apply consumes_raise |].
    simpl in Hws.
    destruct (Ascii.eqb c ":"); [| by apply consumes_raise].
    pose proof (skip_ws_length r1) as Hws1.
    destruct (skip_ws r1) as [| c1 r1'] eqn:E1.
    { destruct fuel; [lia |]. by apply consumes_raise. }
    rewrite <- E1 in *.
    assert (skip_ws r1 <> "") as Hne by (by rewrite E1).
    destruct (IHs (skip_ws r1) ltac:(lia) Hne) as [Hrec Hlen].
    destruct (scan_once fuel (skip_ws r1)) as [[v r2] | e];
      [| rewrite bind_raise; apply consumes_raise; congruence].
    specialize (Hlen v r2 eq_refl). rewrite bind_return. cbv beta iota zeta.
    pose proof (skip_ws_length r2) as Hws2.
    destruct (skip_ws r2) as [| c2 r3]; [by apply consumes_raise |].
    simpl in Hws2.
    destruct (Ascii.eqb c2 "}"); [apply consumes_return; lia |].
    destruct (Ascii.eqb c2 ","); [| by apply consumes_raise].
    pose proof (skip_ws_length r3) as Hws3.
    destruct (skip_ws r3) as [| c' r4]; [by apply consumes_raise |].
    simpl in Hws3.
    destruct (Ascii.eqb c' DQ); [| by apply consumes_raise].
    apply IHo; lia.
Qed.

(** [json_loads] never runs out of fuel. *)
Lemma json_loads_fuel (s : string) : json_loads s <> Raise RecursionError.
Proof.
  unfold json_loads.
  pose proof (skip_ws_length s) as Hws.
  destruct (skip_ws s) as [| c r] eqn:E.
  { simpl. destruct (String.length s + _); [simpl | simpl]; done. }
  rewrite <- E in *.
  assert (skip_ws s <> "") as Hne by (by rewrite E).
  destruct (proj1 (fuel_is_enough (2 * String.length s + 2)) (skip_ws s)
              ltac:(lia) Hne) as [Hrec _].
  destruct (scan_once _ (skip_ws s)) as [[v r'] | e].
  - rewrite bind_return. by destruct (skip_ws r').
  - rewrite bind_raise. congruence.
Qed.

(** ** Result extraction *)

Section ExtractionFacts.

Variable loads : string -> outcome value.

Lemma extract_structured (A : value) (B : option string) :
  A <> VNone -> extract loads A B = Return A.
Proof. intros HA. unfold extract, next_result. by destruct A. Qed.

Lemma extract_no_text : extract loads VNone None = Return VNone.
Proof. reflexivity. Qed.

Lemma extract_empty_text : extract loads VNone (Some "") = Return VNone.
Proof. reflexivity. Qed.

Lemma extract_text (text : string) :
  text <> "" -> extract loads VNone (Some text) = _parse_result_json loads text.
Proof.
  intros H. unfold extract, next_result. apply truthy_text in H. by rewrite H.
Qed.


Lemma parse_fence_fails (text : string) :
  (forall g, search_group fence_re text = Some g ->
             loads (strip g) = Raise JSONDecodeError) ->
  _parse_result_json loads text = parse_raw_json loads text.
Proof.
  intros H. unfold _parse_result_json.
  destruct (search_group fence_re text) as [g |]; [| done].
  by rewrite (H g eq_refl).
Qed.

Lemma parse_raw_fails (text : string) :
  loads (strip text) = Raise JSONDecodeError ->
  parse_raw_json loads text = Return (basic_result text).
Proof. intros H. unfold parse_raw_json. by rewrite H. Qed.


Lemma parse_raw_raises (text : string) (e : exn) :
  search_group fence_re text = None -> loads (strip text) = Raise e ->
  e <> JSONDecodeError ->
  _parse_result_json loads text = Raise e.
Proof.
  intros Hg He Hne. unfold _parse_result_json, parse_raw_json.
  rewrite Hg, He. by destruct e.
Qed.

(** The ladder of [_parse_result_json], stage by stage, when each stage
    that is reached decodes or raises [JSONDecodeError]. *)
Lemma parse_ladder (text : string) :
  (forall g, search_group fence_re text = Some g ->
             only_decode_error (loads (strip g))) ->
  ((forall g, search_group fence_re text = Some g ->
              loads (strip g) = Raise JSONDecodeError) ->
   only_decode_error (loads (strip text))) ->
  exists v, _parse_result_json loads text = Return v /\
    ((exists g, search_group fence_re text = Some g /\
                loads (strip g) = Return v) \/
     ((forall g, search_group fence_re text = Some g ->
                 loads (strip g) = Raise JSONDecodeError) /\
      (loads (strip text) = Return v \/
       (loads (strip text) = Raise JSONDecodeError /\ v = basic_result text)))).
Proof.
  intros Hf Hr.
  assert (only_decode_error (loads (strip text)) ->
          exists v, parse_raw_json loads text = Return v /\
            (loads (strip text) = Return v \/
             (loads (strip text) = Raise JSONDecodeError /\
              v = basic_result text))) as Hraw.
  { intros Hr'. unfold parse_raw_json.
    destruct (loads (strip text)) as [v | e] eqn:E.
    - exists v. split; [done | by left].
    - pose proof (Hr' e eq_refl) as ->. exists (basic_result text).
      split; [done | by right]. }
  unfold _parse_result_json.
  destruct (search_group fence_re text) as [g |] eqn:Eg.
  - destruct (loads (strip g)) as [v' | e] eqn:E.
    + exists v'. split; [done |]. left. by exists g.
    + pose proof (Hf g eq_refl e E) as ->.
      assert (forall g', Some g = Some g' ->
                         loads (strip g') = Raise JSONDecodeError) as Hfail.
      { by intros g' [= <-]. }
      destruct (Hraw (Hr Hfail)) as (v & Hv & Hl).
      exists v. split; [done |]. by right.
  - assert (forall g' : string, None = Some g' ->
                       loads (strip g') = Raise JSONDecodeError) as Hfail.
    { by intros g' [=]. }
    destruct (Hraw (Hr Hfail)) as (v & Hv & Hl).
    exists v. split; [done |]. by right.
Qed.

End ExtractionFacts.

Lemma str_take_all (n : nat) (s : string) :
  String.length s <= n -> str_take n s = s.
Proof.
  revert n. induction s as [| c s IH]; intros [| n] H; simpl in *;
    try reflexivity; try lia.
  rewrite IH; [done | lia].
Qed.

(** The run of a stream that is one result message comes to what [extract]
    says. *)
Lemma run_single_result (loads : string -> outcome value)
    (float_repr : string -> string) (A : value) (B : option string) :
  snd (run loads float_repr [ResultMessage A B]) = extract loads A B.
Proof.
  unfold run, extract. cbn [run_from final_result].
  by destruct (next_result loads VNone (ResultMessage A B)).
Qed.

Lemma next_result_other (loads : string -> outcome value) (r : value)
    (message : Message) :
  (forall A B, message <> ResultMessage A B) ->
  next_result loads r message = Return r.
Proof.
  intros H. destruct message; try reflexivity.
  by destruct (H structured_output result).
Qed.

Lemma run_from_without_result (loads : string -> outcome value)
    (float_repr : string -> string) (messages : list Message) (st : run_state) :
  (forall m, m ∈ messages -> forall A B, m <> ResultMessage A B) ->
  snd (run_from loads float_repr st messages) = Return (final_result st).
Proof.
  revert st. induction messages as [| m messages IH]; intros st H; [done |].
  cbn [run_from]. rewrite next_result_other.
  - rewrite IH; [done |]. intros m' Hm'. apply H. by right.
  - apply H. by left.
Qed.

(** A stream that ends without a result message gives no result. *)
Theorem run_without_result (loads : string -> outcome value)
    (float_repr : string -> string) (messages : list Message) :
  (forall m, m ∈ messages -> forall A B, m <> ResultMessage A B) ->
  snd (run loads float_repr messages) = Return VNone.
Proof. intros H. unfold run. by rewrite run_from_without_result. Qed.

Lemma run_without_result_witness :
  snd (run json_loads (fun lexeme => lexeme)
         [AssistantMessage [TextBlock "Let me look.";
                            ToolUseBlock "Read" [("file_path", VStr "/srv/data/a.py")]];
          UserMessage [ToolResultBlock (VStr "print(1)") None]]) = Return VNone.
Proof.
  apply run_without_result.
  intros m H A B.
  repeat (apply elem_of_cons in H as [-> | H]; [discriminate |]).
  by apply elem_of_nil in H.
Defined.

(** C5 (the claim as stated fails): a raw text that is present but empty
    gives no result. *)
Lemma empty_text_gives_no_result :
  (Some "" : option string) <> None /\
  extract json_loads VNone (Some "") = Return VNone.
Proof. split; [discriminate | reflexivity]. Qed.

(** A raw text that is the JSON [null] gives no result either. *)
Lemma null_text_gives_no_result :
  extract json_loads VNone (Some "null") = Return VNone /\
  extract json_loads VNone (Some (lit "```json\nnull\n```")) = Return VNone.
Proof. split; vm_compute; reflexivity. Qed.

(** And a raw text that is an integer of more than 4300 digits ends the
    run: [json.loads] raises a [ValueError] that is not a
    [JSONDecodeError], and nothing catches it. *)
Lemma long_integer_ends_the_run :
  extract json_loads VNone (Some (str_repeat "7" 4301)) = Raise ValueError.
Proof. vm_compute. reflexivity. Qed.

(** C5 (as amended): for every terminal payload and every JSON decoder, a
    structured output that is present is the result; with none and a raw
    text that is absent or empty there is no result; with none and a raw
    text that is not empty, whenever decoding the stripped content of the
    fenced block (if the text has one) and decoding the stripped text, where
    the ladder comes to them, each return or raise [JSONDecodeError], the
    extraction returns a value: what the block decodes to, else what the
    whole text decodes to, else the basic result, each decoding failure
    being caught where it happens; and that value is a result unless a
    stage of the ladder decodes the JSON [null]. *)
Theorem extraction_presence (loads : string -> outcome value)
    (structured_output : value) (raw_text : option string) :
  (structured_output <> VNone ->
   extract loads structured_output raw_text = Return structured_output) /\
  (structured_output = VNone -> raw_text = None \/ raw_text = Some "" ->
   extract loads structured_output raw_text = Return VNone) /\
  (forall text, structured_output = VNone -> raw_text = Some text -> text <> "" ->
   (forall g, search_group fence_re text = Some g ->
              only_decode_error (loads (strip g))) ->
   ((forall g, search_group fence_re text = Some g ->
               loads (strip g) = Raise JSONDecodeError) ->
    only_decode_error (loads (strip text))) ->
   exists v,
     extract loads structured_output raw_text = Return v /\
     ((exists g, search_group fence_re text = Some g /\
                 loads (strip g) = Return v) \/
      ((forall g, search_group fence_re text = Some g ->
                  loads (strip g) = Raise JSONDecodeError) /\
       (loads (strip text) = Return v \/
        (loads (strip text) = Raise JSONDecodeError /\
         v = basic_result text)))) /\
     ((forall g, search_group fence_re text = Some g ->
                 loads (strip g) <> Return VNone) ->
      loads (strip text) <> Return VNone -> v <> VNone)).
Proof.
  split; [| split].
  - apply extract_structured.
  - intros -> [-> | ->]; reflexivity.
  - intros text -> -> Ht Hf Hr. rewrite (extract_text loads text Ht).
    destruct (parse_ladder loads text Hf Hr) as (v & Hv & Hl).
    exists v. split; [done | split; [done |]].
    intros Hnf Hnr ->.
    destruct Hl as [(g & Hg & Hd) | [_ [Hd | [_ Hb]]]].
    + by apply (Hnf g Hg).
    + done.
    + discriminate.
Qed.

Lemma extraction_presence_witness :
  extract json_loads VNone (Some (lit "Report:\n```json\nall good\n```")) =
  Return (basic_result (lit "Report:\n```json\nall good\n```")).
Proof.
  destruct (proj2 (proj2 (extraction_presence json_loads VNone
                            (Some (lit "Report:\n```json\nall good\n```"))))
              (lit "Report:\n```json\nall good\n```") eq_refl eq_refl)
    as (v & Hv & Hl & _).
  - discriminate.
  - intros g Hg e He. vm_compute in Hg. injection Hg as <-.
    vm_compute in He. congruence.
  - intros _ e He. vm_compute in He. congruence.
  - destruct Hl as [(g & Hg & Hd) | [_ [Hd | [_ ->]]]].
    + vm_compute in Hg. injection Hg as <-. vm_compute in Hd. discriminate.
    + vm_compute in Hd. discriminate.
    + exact Hv.
Defined.

(** C6: when the structured output is present it is the result, whatever
    the raw text holds and whatever it would parse to; the raw text and the
    decoder have no part in the result. *)
Theorem structured_output_wins (loads : string -> outcome value)
    (A : value) (B : option string) :
  A <> VNone ->
  extract loads A B = Return A /\
  (forall (loads' : string -> outcome value) (B' : option string),
     extract loads' A B' = extract loads A B).
Proof.
  intros HA. split.
  - by apply extract_structured.
  - intros loads' B'. by rewrite !extract_structured.
Qed.

Lemma structured_output_wins_witness :
  let A := VDict [("status", VBool false); ("summary", VStr "structured");
                  ("insights", VStr "none")] in
  let B := lit "{'status': true, 'summary': 'text', 'insights': ''}" in
  extract json_loads A (Some B) = Return A /\
  _parse_result_json json_loads B =
    Return (VDict [("status", VBool true); ("summary", VStr "text");
                   ("insights", VStr "")]).
Proof.
  split.
  - apply (structured_output_wins json_loads). discriminate.
  - vm_compute. reflexivity.
Defined.

(** ** The fenced block *)

Lemma drop_prefix_app (p s : string) : drop_prefix p (p +:+ s) = Some s.
Proof.
  induction p as [| c p IH]; simpl; [by destruct s |].
  by rewrite Ascii.eqb_refl.
Qed.

Lemma opt_falls_back {R : Type} (r : regex) (s : string) (k : string -> option R) :
  is_Some (k s) -> is_Some (rmatch (Opt r) s k).
Proof. intros H. simpl. by destruct (rmatch r s k). Qed.

Lemma star_greedy_falls_back {R : Type} (class : ascii -> bool) (s : string)
    (k : string -> option R) :
  is_Some (k s) -> is_Some (star_greedy class s k).
Proof.
  intros H. destruct s as [| c s]; simpl; [done |].
  destruct (class c); [| done].
  by destruct (star_greedy class s k).
Qed.

Lemma star_lazy_finds {R : Type} (a s : string) (k : string -> option R) :
  is_Some (k s) -> is_Some (star_lazy any_char (a +:+ s) k).
Proof.
  intros H. induction a as [| c a IH]; simpl.
  - destruct s; simpl; by destruct H as [x ->].
  - by destruct (k (String c (a +:+ s))).
Qed.

Lemma rmatch_seq {R : Type} (r1 r2 : regex) (s : string) (k : string -> option R) :
  rmatch (Seq r1 r2) s k = rmatch r1 s (fun s' => rmatch r2 s' k).
Proof. reflexivity. Qed.

Lemma rmatch_lit_app {R : Type} (p s : string) (k : string -> option R) :
  rmatch (Lit p) (p +:+ s) k = k s.
Proof. simpl. by rewrite drop_prefix_app. Qed.

Lemma star_falls_back {R : Type} (class : ascii -> bool) (s : string)
    (k : string -> option R) :
  is_Some (k s) -> is_Some (rmatch (Star class) s k).
Proof. apply star_greedy_falls_back. Qed.

Lemma lazy_finds {R : Type} (a s : string) (k : string -> option R) :
  is_Some (k s) -> is_Some (rmatch (StarLazy any_char) (a +:+ s) k).
Proof. apply star_lazy_finds. Qed.

(** At an opening fence that a closing fence follows, the pattern matches. *)
Lemma fence_matches (body post : string) :
  is_Some (match_group fence_re ("```" +:+ body +:+ "```" +:+ post)).
Proof.
  unfold match_group, fence_re. cbn [before inside after].
  rewrite rmatch_seq, rmatch_lit_app, rmatch_seq.
  apply opt_falls_back. rewrite rmatch_seq.
  apply star_falls_back, opt_falls_back, lazy_finds.
  rewrite rmatch_seq. apply opt_falls_back.
  by rewrite rmatch_lit_app.
Qed.

Lemma search_group_finds (p : pattern) (pre s : string) :
  is_Some (match_group p s) -> is_Some (search_group p (pre +:+ s)).
Proof.
  intros H. induction pre as [| c pre IH]; simpl.
  - destruct s; simpl; by destruct H as [x ->].
  - by destruct (match_group p (String c (pre +:+ s))).
Qed.

(** A text that holds a fenced block, with or without a tag, has a match. *)
Lemma fence_found (pre body post : string) :
  is_Some (search_group fence_re (pre +:+ "```" +:+ body +:+ "```" +:+ post)).
Proof. apply search_group_finds, fence_matches. Qed.


(** *** What the group holds *)

Lemma append_cons (c : ascii) (a b : string) :
  String c a +:+ b = String c (a +:+ b).
Proof. reflexivity. Qed.


Lemma append_assoc (a b c : string) : (a +:+ b) +:+ c = a +:+ b +:+ c.
Proof. induction a as [| x a IH]; [done |]. by rewrite !append_cons, IH. Qed.

Lemma length_append (a b : string) :
  String.length (a +:+ b) = String.length a + String.length b.
Proof. induction a as [| x a IH]; [done |]. rewrite append_cons. simpl. by rewrite IH. Qed.

Lemma str_take_app (a b : string) : str_take (String.length a) (a +:+ b) = a.
Proof.
  induction a as [| x a IH]; [by destruct b |].
  rewrite append_cons. simpl. by rewrite IH.
Qed.

Lemma rmatch_lit_cons {R : Type} (c d : ascii) (p s : string)
    (k : string -> option R) :
  rmatch (Lit (String c p)) (String d s) k =
  if Ascii.eqb c d then rmatch (Lit p) s k else None.
Proof. simpl. by destruct (Ascii.eqb c d). Qed.



(** The match fails where the text does not start with a backquote. *)
Lemma match_group_no_fence (c : ascii) (s : string) :
  Ascii.eqb "`"%char c = false -> match_group fence_re (String c s) = None.
Proof.
  intros H. unfold match_group, fence_re. cbn [before].
  by rewrite rmatch_seq, rmatch_lit_cons, H.
Qed.

Lemma search_group_skips (pre s : string) :
  contains_char "`"%char pre = false ->
  search_group fence_re (pre +:+ s) = search_group fence_re s.
Proof.
  induction pre as [| c pre IH]; [done |].
  cbn [contains_char]. intros H. apply orb_false_iff in H as [Hc Hpre].
  rewrite append_cons. cbn [search_group].
  rewrite (match_group_no_fence c _ Hc). by apply IH.
Qed.


(** *** The greedy parts *)








(** *** The lazy part *)

Lemma append_nil_r (a : string) : a +:+ "" = a.
Proof. induction a as [| x a IH]; [done |]. by rewrite append_cons, IH. Qed.




(** *** Unfolding steps and the tag *)





(** *** Stripping the group *)





(** *** The first fence of a text and the fence that closes it *)












(** A tag other than [json] is not a tag for the pattern: it stays in the
    content, which then does not decode, and the ladder goes on. *)
Lemma other_tag_is_content :
  let raw := lit "```python\n[1]\n```" in
  search_group fence_re raw = Some (lit "python\n[1]") /\
  extract json_loads VNone (Some raw) = Return (basic_result raw).
Proof. split; vm_compute; reflexivity. Qed.



(** C8 (the claim as stated fails): on the empty raw text no stage of the
    ladder parses anything, and yet the result is absent, not the basic
    result. *)
Lemma empty_text_is_not_synthesized :
  search_group fence_re "" = None /\
  json_loads (strip "") = Raise JSONDecodeError /\
  extract json_loads VNone (Some "") = Return VNone /\
  extract json_loads VNone (Some "") <> Return (basic_result "").
Proof. repeat split; discriminate. Qed.

(** C8 (as amended): for every JSON decoder and every raw text that is not
    empty, when there is no structured output, no fenced block whose content
    decodes, and the whole text, stripped, does not decode (both with
    [JSONDecodeError]), the result is [{status: true, summary: the first 500
    characters of the text, insights: ""}]; the summary is the text itself
    when it has at most 500 characters.  In particular [plain non-json text]
    gives itself as the summary. *)
Theorem basic_result_when_unparsed :
  (forall (loads : string -> outcome value) (raw : string),
     raw <> "" ->
     (forall g, search_group fence_re raw = Some g ->
                loads (strip g) = Raise JSONDecodeError) ->
     loads (strip raw) = Raise JSONDecodeError ->
     extract loads VNone (Some raw) =
       Return (VDict [("status", VBool true); ("summary", VStr (str_take 500 raw));
                      ("insights", VStr "")]) /\
     (String.length raw <= 500 ->
      extract loads VNone (Some raw) =
        Return (VDict [("status", VBool true); ("summary", VStr raw);
                       ("insights", VStr "")]))) /\
  extract json_loads VNone (Some "plain non-json text") =
    Return (VDict [("status", VBool true); ("summary", VStr "plain non-json text");
                   ("insights", VStr "")]).
Proof.
  split; [| vm_compute; reflexivity].
  intros loads raw Hraw Hfence Hwhole.
  rewrite (extract_text loads raw Hraw), (parse_fence_fails loads raw Hfence),
    (parse_raw_fails loads raw Hwhole).
  split; [reflexivity |].
  intros Hlen. unfold basic_result. by rewrite str_take_all.
Qed.

Lemma basic_result_when_unparsed_witness :
  extract json_loads VNone (Some "no fence, no JSON") =
    Return (VDict [("status", VBool true); ("summary", VStr "no fence, no JSON");
                   ("insights", VStr "")]).
Proof.
  refine (proj2 (proj1 basic_result_when_unparsed json_loads
                   "no fence, no JSON" _ _ _) _).
  - discriminate.
  - intros g H. vm_compute in H. discriminate.
  - vm_compute. reflexivity.
  - vm_compute. lia.
Defined.

(** ** The trace of tool results *)

Lemma length_str_take (n : nat) (s : string) :
  String.length (str_take n s) = Nat.min n (String.length s).
Proof.
  revert s. induction n as [| n IH]; intros [| c s]; simpl; try reflexivity.
  by rewrite IH.
Qed.

Lemma length_str_drop (n : nat) (s : string) :
  String.length (str_drop n s) = String.length s - n.
Proof.
  revert s. induction n as [| n IH]; intros [| c s]; simpl; try reflexivity.
  by rewrite IH.
Qed.

Lemma length_str_last (n : nat) (s : string) :
  String.length (str_last n s) = Nat.min n (String.length s).
Proof. unfold str_last. rewrite length_str_drop. lia. Qed.

(** [str_take n s] and [str_drop n s] are the two parts of [s]. *)
Lemma str_take_drop (n : nat) (s : string) : str_take n s +:+ str_drop n s = s.
Proof.
  revert s. induction n as [| n IH]; intros [| c s]; try reflexivity.
  change (String c (str_take n s +:+ str_drop n s) = String c s).
  by rewrite IH.
Qed.

(** No line feed is left after [replace_newlines]. *)
Lemma replace_newlines_clean (s : string) :
  contains_char LF (replace_newlines s) = false.
Proof.
  induction s as [| c s IH]; [done |].
  cbn [replace_newlines].
  destruct (Ascii.eqb c LF) eqn:E; cbn [contains_char]; rewrite IH.
  - reflexivity.
  - by rewrite (Ascii.eqb_sym LF c), E.
Qed.

(** A text without line feeds is shown as it is. *)
Lemma replace_newlines_id (s : string) :
  contains_char LF s = false -> replace_newlines s = s.
Proof.
  induction s as [| c s IH]; [done |].
  cbn [contains_char replace_newlines].
  intros H. apply orb_false_iff in H as [Hc Hs].
  rewrite (Ascii.eqb_sym c LF), Hc. by rewrite IH.
Qed.

(** The line for a tool result whose content is a text: the status, then
    the text, cut to its first and last hundred characters around three dots
    when it has more than two hundred, with every line feed written as a
    backslash and an [n]. *)
Lemma text_content_line (float_repr : string -> string) (s : string)
    (is_error : option bool) :
  tool_result_line float_repr (VStr s) is_error =
    "  -> [" +:+ (if bool_decide (is_error = Some true) then "ERROR" else "OK")
    +:+ "] " +:+
    replace_newlines
      (if bool_decide (200 < String.length s)
       then str_take 100 s +:+ "..." +:+ str_last 100 s else s) /\
  (200 < String.length s ->
   String.length (str_take 100 s) = 100 /\ String.length (str_last 100 s) = 100).
Proof.
  split.
  - unfold tool_result_line, tool_result_display, tool_result_status.
    assert ((200 <? String.length s) = bool_decide (200 < String.length s)) as ->.
    { case_bool_decide as H; [by apply Nat.ltb_lt | by apply Nat.ltb_ge; lia]. }
    by destruct is_error as [[|] |].
  - intros H. rewrite length_str_take, length_str_last. lia.
Qed.

(** A content of 250 characters: 120 times [a], a line feed, 129 times [b]. *)
Example content_of_250_characters (float_repr : string -> string) :
  let content := str_repeat "a" 120 +:+ nl +:+ str_repeat "b" 129 in
  String.length content = 250 /\
  tool_result_line float_repr (VStr content) (Some false) =
    "  -> [OK] " +:+ str_repeat "a" 100 +:+ "..." +:+ str_repeat "b" 100.
Proof. split; vm_compute; reflexivity. Qed.

(** A content that is not a text is always cut around three dots. *)
Lemma non_text_display (float_repr : string -> string) (content : value) :
  (forall s, content <> VStr s) ->
  tool_result_display float_repr content =
    str_take 100 (py_str float_repr content) +:+ "..." +:+
    str_last 100 (py_str float_repr content).
Proof. intros H. destruct content; try reflexivity. by destruct (H s). Qed.

Lemma non_text_display_length (float_repr : string -> string) (content : value) :
  (forall s, content <> VStr s) ->
  String.length (tool_result_display float_repr content) =
    2 * Nat.min 100 (String.length (py_str float_repr content)) + 3.
Proof.
  intros H. rewrite (non_text_display _ _ H).
  rewrite !length_append, length_str_take, length_str_last. simpl. lia.
Qed.

(** C9 (the code at the failing inputs): a content that is not a text is
    shown through [str], always as its first hundred characters, three dots
    and its last hundred characters; one of at most two hundred characters
    is therefore never shown in full, as a text of that length is: [None]
    and a short list of blocks come out twice, around the dots. *)
Theorem short_non_text_content_is_doubled (float_repr : string -> string) :
  tool_result_line float_repr VNone (Some false) = "  -> [OK] None...None" /\
  tool_result_line float_repr
    (VList [VDict [("type", VStr "text"); ("text", VStr "done")]]) None =
    "  -> [OK] [{'type': 'text', 'text': 'done'}]...[{'type': 'text', 'text': 'done'}]" /\
  (forall content : value,
     (forall s, content <> VStr s) ->
     String.length (py_str float_repr content) <= 200 ->
     tool_result_display float_repr content <> py_str float_repr content).
Proof.
  split; [vm_compute; reflexivity | split; [vm_compute; reflexivity |]].
  intros content Hc Hlen Heq. apply (f_equal String.length) in Heq.
  rewrite (non_text_display_length _ _ Hc) in Heq. lia.
Qed.

(** * Further properties *)

(** ** More on the whitelist test *)

Lemma proper_descendant_app (target p rest : Path) :
  target = p \/ proper_descendant target p ->
  target ++ rest = p \/ proper_descendant (target ++ rest) p.
Proof.
  intros [-> | (r & Hr & ->)].
  - destruct rest as [| x rest]; [left; apply app_nil_r |].
    right. by exists (x :: rest).
  - right. exists (r ++ rest). split; [by destruct r | by rewrite app_assoc].
Qed.

(** [_is_subpath] keeps what it allowed when the whitelist grows, and so does
    the guard of the handler once the whitelist is not empty. *)
Theorem larger_whitelist_keeps_access (target : Path) (W W' : gset Path) :
  W ⊆ W' ->
  (_is_subpath target W = true -> _is_subpath target W' = true) /\
  (W <> ∅ -> whitelist_guard target W = true -> whitelist_guard target W' = true).
Proof.
  intros Hsub.
  assert (_is_subpath target W = true -> _is_subpath target W' = true) as Hmono.
  { rewrite !_is_subpath_spec. intros (p & Hp & Hd). exists p.
    split; [by apply Hsub | done]. }
  split; [done |].
  intros Hne. unfold whitelist_guard. rewrite !orb_true_iff, !Nat.eqb_eq.
  intros [Hsz | H]; [| right; by apply Hmono].
  by apply size_empty_inv, leibniz_equiv in Hsz.
Qed.

Lemma larger_whitelist_keeps_access_witness :
  whitelist_guard ["srv"; "data"; "a"] {[ ["srv"; "data"]; ["srv"; "out"] ]} = true.
Proof.
  refine (proj2 (larger_whitelist_keeps_access ["srv"; "data"; "a"]
                   {[ ["srv"; "data"] ]} {[ ["srv"; "data"]; ["srv"; "out"] ]} _) _ _).
  - apply union_subseteq_l.
  - intros H. apply (f_equal size) in H. vm_compute in H. discriminate.
  - reflexivity.
Defined.

(** What lies below an allowed path is allowed. *)
Theorem below_allowed_is_allowed (target rest : Path) (W : gset Path) :
  _is_subpath target W = true ->
  _is_subpath (target ++ rest) W = true /\
  whitelist_guard (target ++ rest) W = true.
Proof.
  intros H.
  assert (_is_subpath (target ++ rest) W = true) as H'.
  { apply _is_subpath_spec in H as (p & Hp & H). apply _is_subpath_spec.
    exists p. split; [done |]. by apply proper_descendant_app. }
  split; [done |]. unfold whitelist_guard. rewrite H'. apply orb_true_r.
Qed.

Lemma below_allowed_is_allowed_witness :
  _is_subpath (["srv"; "data"] ++ ["in"; "a.csv"]) {[ ["srv"] ]} = true /\
  whitelist_guard (["srv"; "data"] ++ ["in"; "a.csv"]) {[ ["srv"] ]} = true.
Proof.
  apply (below_allowed_is_allowed ["srv"; "data"] ["in"; "a.csv"] {[ ["srv"] ]}).
  reflexivity.
Defined.

(** The test goes by components, not by characters: next to a whitelisted
    directory, a directory of another name is outside, and so is all below
    it, even when the one name starts with the other. *)
Theorem sibling_is_outside (parent rest : Path) (name name' : string) :
  name <> name' ->
  _is_subpath (parent ++ name' :: rest) {[ parent ++ [name] ]} = false /\
  whitelist_guard (parent ++ name' :: rest) {[ parent ++ [name] ]} = false.
Proof.
  intros Hne.
  assert (~ (parent ++ name' :: rest = parent ++ [name] \/
             proper_descendant (parent ++ name' :: rest) (parent ++ [name]))) as Hout.
  { intros [H | (r & _ & H)].
    - apply app_inv_head in H. congruence.
    - rewrite <- app_assoc in H. apply app_inv_head in H. simpl in H. congruence. }
  assert (whitelist_guard (parent ++ name' :: rest) {[ parent ++ [name] ]} = false)
    as Hg.
  { destruct (whitelist_guard _ _) eqn:E; [| done].
    apply whitelist_guard_singleton in E. done. }
  split; [| done].
  unfold whitelist_guard in Hg. by apply orb_false_iff in Hg as [_ Hg].
Qed.

Lemma sibling_is_outside_witness :
  _is_subpath (["srv"] ++ "database" :: ["x"]) {[ ["srv"] ++ ["data"] ]} = false /\
  whitelist_guard (["srv"] ++ "database" :: ["x"]) {[ ["srv"] ++ ["data"] ]} = false.
Proof. apply (sibling_is_outside ["srv"] ["x"] "data" "database"). discriminate. Defined.

(** A whitelist that holds the root allows every path. *)
Theorem root_allows_everything (target : Path) (W : gset Path) :
  [] ∈ W -> _is_subpath target W = true.
Proof.
  intros H. apply _is_subpath_spec. exists []. split; [done |].
  destruct target as [| x target]; [by left |].
  right. by exists (x :: target).
Qed.

Lemma root_allows_everything_witness :
  _is_subpath ["etc"; "passwd"] {[ []; ["srv"; "data"] ]} = true.
Proof.
  apply root_allows_everything. apply elem_of_union_l. by apply elem_of_singleton.
Defined.

(** ** More on the permission handler *)

Section HandlerMore.

Variable resolve : string -> outcome Path.

(** What a denial tells: the candidate is a text that is not empty and that
    resolves, and the tool is a read tool refused by the readable whitelist
    or a write tool refused by the writable one. *)
Lemma handler_deny_inv (self : ClaudeCodingAgent) (tool : string)
    (tool_input : dict) (msg : string) :
  permission_handler resolve self tool tool_input =
    Return (PermissionResultDeny msg) ->
  exists P target,
    py_or (dict_get tool_input "file_path") (dict_get tool_input "path") = VStr P /\
    P <> "" /\ resolve P = Return target /\
    ((tool ∈ ["Read"; "Grep"; "Glob"] /\
      whitelist_guard target (readable_paths self) = false /\
      msg = "Access Denied: " +:+ P +:+ " is not in readable whitelist.") \/
     (tool ∈ ["Write"; "Edit"; "MultiEdit"] /\
      whitelist_guard target (writable_paths self) = false /\
      msg = "Access Denied: " +:+ P +:+ " is not in writable whitelist.")).
Proof.
  unfold permission_handler.
  destruct (truthy (py_or _ _)) eqn:Ht; simpl negb; cbv iota; [| done].
  destruct (py_or _ _) as [| | | | P | |] eqn:Hc; try done.
  apply truthy_text in Ht.
  destruct (resolve P) as [target | e] eqn:Hres; [| done].
  rewrite bind_return.
  destruct (name_in tool ["Read"; "Grep"; "Glob"]) eqn:Er.
  { apply name_in_spec in Er.
    destruct (whitelist_guard target (readable_paths self)) eqn:Eg; [done |].
    intros [= <-]. exists P, target. repeat split; try done. by left. }
  destruct (name_in tool ["Write"; "Edit"; "MultiEdit"]) eqn:Ew; [| done].
  apply name_in_spec in Ew.
  destruct (whitelist_guard target (writable_paths self)) eqn:Eg; [done |].
  intros [= <-]. exists P, target. repeat split; try done. by right.
Qed.

Lemma guard_empty (target : Path) : whitelist_guard target ∅ = true.
Proof. reflexivity. Qed.

End HandlerMore.

(** A denial is never given to a tool of neither category, nor by a
    whitelist that is empty, nor for a candidate that is absent or falsy:
    it comes from a read tool and a readable whitelist that is not empty and
    does not hold the resolved path, or from a write tool and the writable
    whitelist likewise, and its message holds the path text as it was
    given. *)
Theorem denial_comes_from_a_whitelist (resolve : string -> outcome Path)
    (self : ClaudeCodingAgent) (tool : string) (tool_input : dict)
    (msg : string) :
  permission_handler resolve self tool tool_input =
    Return (PermissionResultDeny msg) ->
  exists P target,
    py_or (dict_get tool_input "file_path") (dict_get tool_input "path") = VStr P /\
    P <> "" /\ resolve P = Return target /\
    ((tool ∈ ["Read"; "Grep"; "Glob"] /\ readable_paths self <> ∅ /\
      _is_subpath target (readable_paths self) = false /\
      msg = "Access Denied: " +:+ P +:+ " is not in readable whitelist.") \/
     (tool ∈ ["Write"; "Edit"; "MultiEdit"] /\ writable_paths self <> ∅ /\
      _is_subpath target (writable_paths self) = false /\
      msg = "Access Denied: " +:+ P +:+ " is not in writable whitelist.")).
Proof.
  intros H. apply handler_deny_inv in H as (P & target & Hc & HP & Hres & H).
  exists P, target. repeat split; try done.
  assert (forall W, whitelist_guard target W = false ->
                    W <> ∅ /\ _is_subpath target W = false) as Hg.
  { intros W Hw. unfold whitelist_guard in Hw.
    apply orb_false_iff in Hw as [Hsz Hsub]. split; [| done].
    intros ->. discriminate. }
  destruct H as [(Ht & Hw & Hm) | (Ht & Hw & Hm)]; apply Hg in Hw as [? ?];
    [left | right]; done.
Qed.

Lemma denial_comes_from_a_whitelist_witness :
  exists P target,
    py_or (dict_get [("path", VStr "/etc")] "file_path")
          (dict_get [("path", VStr "/etc")] "path") = VStr P /\
    P <> "" /\ host_resolve P = Return target /\
    (("Grep" ∈ ["Read"; "Grep"; "Glob"] /\ readable_paths guarded_agent <> ∅ /\
      _is_subpath target (readable_paths guarded_agent) = false /\
      "Access Denied: /etc is not in readable whitelist." =
        "Access Denied: " +:+ P +:+ " is not in readable whitelist.") \/
     ("Grep" ∈ ["Write"; "Edit"; "MultiEdit"] /\ writable_paths guarded_agent <> ∅ /\
      _is_subpath target (writable_paths guarded_agent) = false /\
      "Access Denied: /etc is not in readable whitelist." =
        "Access Denied: " +:+ P +:+ " is not in writable whitelist.")).
Proof.
  apply (denial_comes_from_a_whitelist host_resolve guarded_agent "Grep"
           [("path", VStr "/etc")]).
  reflexivity.
Defined.

(** The decision depends on the tool through its category only, and on the
    agent through the whitelist of that category only: two read tools
    receive the same decision from two agents with the same readable
    whitelist, two write tools from two agents with the same writable
    whitelist, and two tools of neither category from any two agents. *)
Theorem decision_by_category (resolve : string -> outcome Path)
    (self self' : ClaudeCodingAgent) (tool tool' : string) (tool_input : dict) :
  (tool ∈ ["Read"; "Grep"; "Glob"] -> tool' ∈ ["Read"; "Grep"; "Glob"] ->
   readable_paths self = readable_paths self' ->
   permission_handler resolve self tool tool_input =
   permission_handler resolve self' tool' tool_input) /\
  (tool ∈ ["Write"; "Edit"; "MultiEdit"] -> tool' ∈ ["Write"; "Edit"; "MultiEdit"] ->
   writable_paths self = writable_paths self' ->
   permission_handler resolve self tool tool_input =
   permission_handler resolve self' tool' tool_input) /\
  (tool ∉ ["Read"; "Grep"; "Glob"] -> tool ∉ ["Write"; "Edit"; "MultiEdit"] ->
   tool' ∉ ["Read"; "Grep"; "Glob"] -> tool' ∉ ["Write"; "Edit"; "MultiEdit"] ->
   permission_handler resolve self tool tool_input =
   permission_handler resolve self' tool' tool_input).
Proof.
  assert (forall t, t ∈ ["Write"; "Edit"; "MultiEdit"] ->
                    name_in t ["Read"; "Grep"; "Glob"] = false) as Hdisj.
  { intros t Ht. repeat (apply elem_of_cons in Ht as [-> | Ht]; [reflexivity |]).
    by apply elem_of_nil in Ht. }
  assert (forall t l, t ∉ l -> name_in t l = false) as Hout.
  { intros t l Ht. destruct (name_in t l) eqn:E; [| done].
    by apply name_in_spec in E. }
  unfold permission_handler.
  destruct (negb (truthy (py_or _ _))); [done |].
  destruct (py_or _ _); try done.
  destruct (resolve s) as [target | e]; [| done]. rewrite !bind_return.
  split; [| split].
  - intros Ht Ht' Hw. apply name_in_spec in Ht, Ht'. by rewrite Ht, Ht', Hw.
  - intros Ht Ht' Hw. rewrite (Hdisj _ Ht), (Hdisj _ Ht').
    apply name_in_spec in Ht, Ht'. by rewrite Ht, Ht', Hw.
  - intros Hr Hw Hr' Hw'.
    by rewrite (Hout _ _ Hr), (Hout _ _ Hw), (Hout _ _ Hr'), (Hout _ _ Hw').
Qed.

Lemma decision_by_category_witness :
  permission_handler host_resolve guarded_agent "Read" [("path", VStr "/srv/out/x")] =
  permission_handler host_resolve
    {| model_name := "m"; base_dir := "/tmp";
       readable_paths := {[ ["srv"; "data"] ]}; writable_paths := ∅ |}
    "Glob" [("path", VStr "/srv/out/x")].
Proof.
  refine (proj1 (decision_by_category host_resolve guarded_agent
                   {| model_name := "m"; base_dir := "/tmp";
                      readable_paths := {[ ["srv"; "data"] ]};
                      writable_paths := ∅ |}
                   "Read" "Glob" [("path", VStr "/srv/out/x")]) _ _ _).
  - repeat constructor.
  - repeat constructor.
  - reflexivity.
Defined.

(** ** The constructor and the handler *)

Section InitFacts.

Variable resolve : string -> outcome Path.
Variable mkdir : string -> outcome unit.

Lemma map_outcome_return (l : list string) (ys : list Path) :
  map_outcome resolve l = Return ys ->
  forall t, t ∈ ys <-> exists p, p ∈ l /\ resolve p = Return t.
Proof.
  revert ys. induction l as [| x l IH]; intros ys.
  - intros [= <-] t. split; [by intros ?%elem_of_nil |].
    by intros (p & ?%elem_of_nil & _).
  - cbn [map_outcome]. destruct (resolve x) as [y | e] eqn:Ex; [| done].
    rewrite bind_return.
    destruct (map_outcome resolve l) as [ys' | e] eqn:El; [| done].
    rewrite bind_return. intros [= <-] t. specialize (IH ys' eq_refl t).
    rewrite elem_of_cons, IH. split.
    + intros [-> | (p & Hp & Hr)].
      * exists x. split; [by left | done].
      * exists p. split; [by right | done].
    + intros (p & Hp & Hr). apply elem_of_cons in Hp as [-> | Hp].
      * left. congruence.
      * right. by exists p.
Qed.

Lemma map_outcome_returns_iff (l : list string) :
  (exists ys, map_outcome resolve l = Return ys) <->
  (forall p, p ∈ l -> exists t, resolve p = Return t).
Proof.
  induction l as [| x l IH].
  - split; [by intros _ p ?%elem_of_nil | by exists []].
  - cbn [map_outcome]. split.
    + intros (ys & H) p Hp.
      destruct (resolve x) as [y | e] eqn:Ex; [| done].
      rewrite bind_return in H.
      destruct (map_outcome resolve l) as [ys' | e] eqn:El; [| done].
      apply elem_of_cons in Hp as [-> | Hp]; [by exists y |].
      apply (proj1 IH); [by exists ys' | done].
    + intros H. destruct (H x) as [y Hy]; [by left |].
      rewrite Hy, bind_return.
      destruct (proj2 IH) as [ys' Hys'].
      { intros p Hp. apply H. by right. }
      rewrite Hys', bind_return. by eexists.
Qed.

Lemma init_return_inv (model base : string)
    (readable writable : option (list string)) (self : ClaudeCodingAgent) :
  init resolve mkdir model readable writable base = Return self ->
  exists rs ws,
    mkdir base = Return tt /\
    map_outcome resolve (or_empty readable) = Return rs /\
    map_outcome resolve (or_empty writable) = Return ws /\
    self = {| model_name := model; base_dir := base;
              readable_paths := list_to_set rs;
              writable_paths := list_to_set ws |}.
Proof.
  unfold init. cbv zeta.
  destruct (mkdir base) as [[] | e]; [| done]. rewrite bind_return.
  destruct (map_outcome resolve (or_empty readable)) as [rs | e]; [| done].
  rewrite bind_return.
  destruct (map_outcome resolve (or_empty writable)) as [ws | e]; [| done].
  rewrite bind_return. intros [= <-]. by exists rs, ws.
Qed.

End InitFacts.

(** The constructor returns an agent exactly when the base directory can be
    created and every path of the two lists resolves; otherwise it raises,
    and an absent list counts as an empty one. *)
Theorem init_returns_iff (resolve : string -> outcome Path)
    (mkdir : string -> outcome unit) (model base : string)
    (readable writable : option (list string)) :
  (exists self, init resolve mkdir model readable writable base = Return self) <->
  (mkdir base = Return tt /\
   forall p, p ∈ or_empty readable ++ or_empty writable ->
             exists t, resolve p = Return t).
Proof.
  split.
  - intros (self & H).
    apply init_return_inv in H as (rs & ws & Hm & Hr & Hw & _).
    split; [done |]. intros p Hp.
    apply elem_of_app in Hp as [Hp | Hp].
    + apply (proj1 (map_outcome_returns_iff resolve (or_empty readable)));
        [by exists rs | done].
    + apply (proj1 (map_outcome_returns_iff resolve (or_empty writable)));
        [by exists ws | done].
  - intros [Hm H]. unfold init. cbv zeta. rewrite Hm, bind_return.
    destruct (proj2 (map_outcome_returns_iff resolve (or_empty readable)))
      as [rs ->].
    { intros p Hp. apply H, elem_of_app. by left. }
    destruct (proj2 (map_outcome_returns_iff resolve (or_empty writable)))
      as [ws ->].
    { intros p Hp. apply H, elem_of_app. by right. }
    rewrite !bind_return. by eexists.
Qed.

(** The whitelists of a constructed agent are the canonical forms of the
    paths it was given, no more and no less, and its model name and base
    directory are the ones given. *)
Theorem init_whitelists (resolve : string -> outcome Path)
    (mkdir : string -> outcome unit) (model base : string)
    (readable writable : option (list string)) (self : ClaudeCodingAgent) :
  init resolve mkdir model readable writable base = Return self ->
  (forall t, t ∈ readable_paths self <->
             exists p, p ∈ or_empty readable /\ resolve p = Return t) /\
  (forall t, t ∈ writable_paths self <->
             exists p, p ∈ or_empty writable /\ resolve p = Return t) /\
  model_name self = model /\ base_dir self = base.
Proof.
  intros H. apply init_return_inv in H as (rs & ws & _ & Hr & Hw & ->).
  cbn [readable_paths writable_paths model_name base_dir].
  repeat split; try done.
  - rewrite elem_of_list_to_set. by apply map_outcome_return.
  - intros H. apply elem_of_list_to_set.
    by apply (map_outcome_return resolve (or_empty readable)).
  - rewrite elem_of_list_to_set. by apply map_outcome_return.
  - intros H. apply elem_of_list_to_set.
    by apply (map_outcome_return resolve (or_empty writable)).
Qed.

Lemma init_whitelists_witness :
  (forall t, t ∈ (list_to_set [["home"; "agent"; "workdir"]] : gset Path) <->
             exists p, p ∈ ["workdir"] /\ host_resolve p = Return t) /\
  (forall t, t ∈ (list_to_set [["srv"; "out"]] : gset Path) <->
             exists p, p ∈ ["/srv/out/"] /\ host_resolve p = Return t) /\
  "m" = "m" /\ "/tmp" = "/tmp".
Proof.
  refine (init_whitelists host_resolve host_mkdir "m" "/tmp"
            (Some ["workdir"]) (Some ["/srv/out/"])
            {| model_name := "m"; base_dir := "/tmp";
               readable_paths := list_to_set [["home"; "agent"; "workdir"]];
               writable_paths := list_to_set [["srv"; "out"]] |} _).
  reflexivity.
Defined.

(** A path given to the constructor, and all that resolves to it or below
    it, is allowed to the tools of its list: the read tools for a readable
    path, the write tools for a writable one. *)
Theorem listed_path_is_allowed (resolve : string -> outcome Path)
    (mkdir : string -> outcome unit) (model base : string)
    (readable writable : option (list string))
    (self : ClaudeCodingAgent) (tool : string) (tool_input : dict)
    (p q : string) (tp tq : Path) :
  init resolve mkdir model readable writable base = Return self ->
  py_or (dict_get tool_input "file_path") (dict_get tool_input "path") = VStr q ->
  q <> "" ->
  resolve p = Return tp -> resolve q = Return tq ->
  tq = tp \/ proper_descendant tq tp ->
  (p ∈ or_empty readable -> tool ∈ ["Read"; "Grep"; "Glob"] ->
   permission_handler resolve self tool tool_input = Return PermissionResultAllow) /\
  (p ∈ or_empty writable -> tool ∈ ["Write"; "Edit"; "MultiEdit"] ->
   permission_handler resolve self tool tool_input = Return PermissionResultAllow).
Proof.
  intros Hinit Hc Hq Hp Hrq Hbelow.
  apply init_return_inv in Hinit as (rs & ws & _ & Hr & Hw & ->).
  assert (forall l ys, map_outcome resolve l = Return ys -> p ∈ l ->
                       whitelist_guard tq (list_to_set ys) = true) as Hg.
  { intros l ys Hl Hin. apply whitelist_guard_spec. right.
    assert (tp ∈ (list_to_set ys : gset Path)) as Htp.
    { apply elem_of_list_to_set, (map_outcome_return resolve l ys Hl). by exists p. }
    destruct Hbelow as [-> | Hd]; [by left | right; by exists tp]. }
  split; intros Hin Htool.
  - rewrite (handler_read resolve _ tool tool_input q tq Hq Hc Hrq Htool).
    cbn [readable_paths]. by rewrite (Hg (or_empty readable) rs Hr Hin).
  - rewrite (handler_write resolve _ tool tool_input q tq Hq Hc Hrq Htool).
    cbn [writable_paths]. by rewrite (Hg (or_empty writable) ws Hw Hin).
Qed.

Lemma listed_path_is_allowed_witness :
  permission_handler host_resolve
    {| model_name := "m"; base_dir := "/tmp";
       readable_paths := list_to_set [["home"; "agent"; "workdir"]];
       writable_paths := list_to_set [] |}
    "Glob" [("path", VStr "workdir/src/../lib")] = Return PermissionResultAllow.
Proof.
  refine (proj1 (listed_path_is_allowed host_resolve host_mkdir "m" "/tmp"
                   (Some ["workdir"]) None _ "Glob" [("path", VStr "workdir/src/../lib")]
                   "workdir" "workdir/src/../lib"
                   ["home"; "agent"; "workdir"] ["home"; "agent"; "workdir"; "lib"]
                   _ _ _ _ _ _) _ _).
  - reflexivity.
  - reflexivity.
  - discriminate.
  - reflexivity.
  - reflexivity.
  - right. exists ["lib"]. by split.
  - by left.
  - repeat constructor.
Defined.

(** An empty or absent list lifts the restriction: an agent built with no
    readable path never denies a read tool, one built with no writable path
    never denies a write tool, and one built with neither never denies at
    all. *)
Theorem empty_list_lifts_restriction (resolve : string -> outcome Path)
    (mkdir : string -> outcome unit) (model base : string)
    (readable writable : option (list string)) (self : ClaudeCodingAgent) :
  init resolve mkdir model readable writable base = Return self ->
  (or_empty readable = [] -> forall tool tool_input msg,
     tool ∈ ["Read"; "Grep"; "Glob"] ->
     permission_handler resolve self tool tool_input <>
       Return (PermissionResultDeny msg)) /\
  (or_empty writable = [] -> forall tool tool_input msg,
     tool ∈ ["Write"; "Edit"; "MultiEdit"] ->
     permission_handler resolve self tool tool_input <>
       Return (PermissionResultDeny msg)) /\
  (or_empty readable = [] -> or_empty writable = [] ->
   forall tool tool_input msg,
     permission_handler resolve self tool tool_input <>
       Return (PermissionResultDeny msg)).
Proof.
  intros Hinit.
  apply init_return_inv in Hinit as (rs & ws & _ & Hr & Hw & ->).
  assert (forall t, t ∈ ["Write"; "Edit"; "MultiEdit"] ->
                    t ∉ ["Read"; "Grep"; "Glob"]) as Hdisj.
  { intros t Ht Ht'.
    repeat (apply elem_of_cons in Ht as [-> | Ht];
            [repeat (apply elem_of_cons in Ht' as [Ht' | Ht']; [discriminate |]);
             by apply elem_of_nil in Ht' |]).
    by apply elem_of_nil in Ht. }
  assert (or_empty readable = [] -> forall tool tool_input msg,
            permission_handler resolve
              {| model_name := model; base_dir := base;
                 readable_paths := list_to_set rs;
                 writable_paths := list_to_set ws |} tool tool_input =
              Return (PermissionResultDeny msg) ->
            tool ∈ ["Write"; "Edit"; "MultiEdit"]) as Hread.
  { intros He tool tool_input msg H. rewrite He in Hr. injection Hr as <-.
    apply handler_deny_inv in H as (P & t & _ & _ & _ & [(_ & Hg & _) | (Ht & _)]);
      [| done].
    cbn [readable_paths] in Hg. by rewrite guard_empty in Hg. }
  assert (or_empty writable = [] -> forall tool tool_input msg,
            permission_handler resolve
              {| model_name := model; base_dir := base;
                 readable_paths := list_to_set rs;
                 writable_paths := list_to_set ws |} tool tool_input =
              Return (PermissionResultDeny msg) ->
            tool ∈ ["Read"; "Grep"; "Glob"]) as Hwrite.
  { intros He tool tool_input msg H. rewrite He in Hw. injection Hw as <-.
    apply handler_deny_inv in H as (P & t & _ & _ & _ & [(Ht & _) | (_ & Hg & _)]);
      [done |].
    cbn [writable_paths] in Hg. by rewrite guard_empty in Hg. }
  split; [| split].
  - intros He tool tool_input msg Ht H.
    apply (Hdisj tool); [by apply (Hread He tool tool_input msg) | done].
  - intros He tool tool_input msg Ht H.
    apply (Hdisj tool); [done | by apply (Hwrite He tool tool_input msg)].
  - intros He He' tool tool_input msg H.
    apply (Hdisj tool).
    + by apply (Hread He tool tool_input msg).
    + by apply (Hwrite He' tool tool_input msg).
Qed.

Lemma empty_list_lifts_restriction_witness :
  permission_handler host_resolve
    {| model_name := "m"; base_dir := "/tmp";
       readable_paths := list_to_set [];
       writable_paths := list_to_set [["srv"; "out"]] |}
    "Read" [("file_path", VStr "/etc/passwd")] <>
  Return (PermissionResultDeny "Access Denied: /etc/passwd is not in readable whitelist.") /\
  permission_handler host_resolve
    {| model_name := "m"; base_dir := "/tmp";
       readable_paths := list_to_set [];
       writable_paths := list_to_set [["srv"; "out"]] |}
    "Write" [("file_path", VStr "/etc/passwd")] =
  Return (PermissionResultDeny "Access Denied: /etc/passwd is not in writable whitelist.").
Proof.
  split; [| reflexivity].
  refine (proj1 (empty_list_lifts_restriction host_resolve host_mkdir "m" "/tmp"
                   None (Some ["/srv/out"]) _ _)
            eq_refl "Read" [("file_path", VStr "/etc/passwd")] _ _).
  - reflexivity.
  - repeat constructor.
Defined.

(** ** More on the loop of [run] *)

Section RunFacts.

Variable loads : string -> outcome value.
Variable float_repr : string -> string.

(** The loop over two streams, one after the other. *)
Lemma run_from_app (st : run_state) (ms1 ms2 : list Message) :
  run_from loads float_repr st (ms1 ++ ms2) =
  match run_from loads float_repr st ms1 with
  | (lines, Return r) =>
      run_from loads float_repr {| printed := lines; final_result := r |} ms2
  | (lines, Raise e) => (lines, Raise e)
  end.
Proof.
  revert st. induction ms1 as [| m ms1 IH]; intros st.
  - by destruct st.
  - cbn [app run_from].
    destruct (next_result loads (final_result st) m); [apply IH | done].
Qed.

(** When the loop returns, it has printed the lines of every message. *)
Lemma run_from_lines (st : run_state) (ms : list Message) (r : value) :
  snd (run_from loads float_repr st ms) = Return r ->
  fst (run_from loads float_repr st ms) =
  printed st ++ concat (map (message_lines float_repr) ms).
Proof.
  revert st. induction ms as [| m ms IH]; intros st.
  - intros _. cbn. by rewrite app_nil_r.
  - cbn [run_from map concat].
    destruct (next_result loads (final_result st) m); [| done].
    intros H. rewrite (IH _ H). cbn [printed]. by rewrite app_assoc.
Qed.

(** The result of the loop goes by the result messages alone. *)
Lemma run_from_result_filter (float_repr' : string -> string)
    (st st' : run_state) (ms : list Message) :
  final_result st = final_result st' ->
  snd (run_from loads float_repr st ms) =
  snd (run_from loads float_repr' st' (List.filter is_result_message ms)).
Proof.
  revert st st'. induction ms as [| m ms IH]; intros st st' Hst.
  - cbn. by rewrite Hst.
  - cbn [List.filter]. destruct (is_result_message m) eqn:Em.
    + cbn [run_from]. rewrite Hst.
      destruct (next_result loads (final_result st') m); [| done].
      by apply IH.
    + cbn [run_from]. rewrite next_result_other.
      * by apply IH.
      * intros A B ->. discriminate.
Qed.

End RunFacts.

(** When [run] returns, it has printed the lines of every message of the
    stream, in order, and nothing else: the lines do not depend on the
    decoder. *)
Theorem trace_of_a_returning_run (loads : string -> outcome value)
    (float_repr : string -> string) (messages : list Message) (r : value) :
  snd (run loads float_repr messages) = Return r ->
  fst (run loads float_repr messages) =
  concat (map (message_lines float_repr) messages).
Proof. intros H. unfold run in *. by rewrite (run_from_lines _ _ _ _ r H). Qed.

Lemma trace_of_a_returning_run_witness :
  fst (run json_loads (fun lexeme => lexeme)
         [AssistantMessage [TextBlock "Reading."; ToolUseBlock "Read" [("file_path", VStr "a.py")]];
          UserMessage [ToolResultBlock (VStr "x = 1") (Some false)];
          ResultMessage VNone (Some "done")]) =
  ["Claude: Reading."; "[TOOL] Read(file_path='a.py')"; "  -> [OK] x = 1"].
Proof.
  refine (trace_of_a_returning_run json_loads (fun lexeme => lexeme)
            [AssistantMessage [TextBlock "Reading."; ToolUseBlock "Read" [("file_path", VStr "a.py")]];
             UserMessage [ToolResultBlock (VStr "x = 1") (Some false)];
             ResultMessage VNone (Some "done")]
            (basic_result "done") _).
  vm_compute. reflexivity.
Defined.

(** What [run] returns or raises goes by the result messages of the stream
    alone: the assistant and user messages, and the way floats are printed,
    have no part in it. *)
Theorem result_goes_by_result_messages (loads : string -> outcome value)
    (float_repr float_repr' : string -> string) (messages : list Message) :
  snd (run loads float_repr messages) =
  snd (run loads float_repr' (List.filter is_result_message messages)).
Proof. unfold run. by apply run_from_result_filter. Qed.

(** The last result message that carries something decides: after a stream
    that returned [r], one more result message with a structured output
    gives that output; with none and a raw text that is not empty it gives
    what [_parse_result_json] makes of the text; with none and a raw text
    that is absent or empty it leaves [r]. *)
Theorem one_more_result_message (loads : string -> outcome value)
    (float_repr : string -> string) (messages : list Message) (r : value)
    (A : value) (B : option string) :
  snd (run loads float_repr messages) = Return r ->
  (A <> VNone ->
   snd (run loads float_repr (messages ++ [ResultMessage A B])) = Return A) /\
  (B = None \/ B = Some "" ->
   snd (run loads float_repr (messages ++ [ResultMessage VNone B])) = Return r) /\
  (forall text, B = Some text -> text <> "" ->
   snd (run loads float_repr (messages ++ [ResultMessage VNone B])) =
   _parse_result_json loads text).
Proof.
  intros H. unfold run in *.
  assert (forall m, snd (run_from loads float_repr
                           {| printed := []; final_result := VNone |}
                           (messages ++ [m])) = next_result loads r m) as Hm.
  { intros m. rewrite run_from_app.
    destruct (run_from loads float_repr _ messages) as [lines [r' | e]];
      simpl in H; [| done].
    injection H as ->. cbn [run_from final_result].
    by destruct (next_result loads r m). }
  rewrite !Hm. repeat split.
  - intros HA. by destruct A.
  - intros [-> | ->]; reflexivity.
  - intros text -> Ht. cbn [next_result]. apply truthy_text in Ht. by rewrite Ht.
Qed.

Lemma one_more_result_message_witness :
  snd (run json_loads (fun lexeme => lexeme)
         ([ResultMessage VNone (Some "first")] ++ [ResultMessage VNone (Some "")])) =
  Return (basic_result "first").
Proof.
  refine (proj1 (proj2 (one_more_result_message json_loads (fun lexeme => lexeme)
                          [ResultMessage VNone (Some "first")] (basic_result "first")
                          VNone (Some "") _)) _).
  - vm_compute. reflexivity.
  - by right.
Defined.

(** An exception ends the loop: once a stream has raised, whatever follows
    it is neither printed nor looked at. *)
Theorem exception_ends_the_run (loads : string -> outcome value)
    (float_repr : string -> string) (messages rest : list Message) (e : exn) :
  snd (run loads float_repr messages) = Raise e ->
  run loads float_repr (messages ++ rest) = run loads float_repr messages.
Proof.
  intros H. unfold run in *. rewrite run_from_app.
  by destruct (run_from loads float_repr _ messages) as [lines [r | e']].
Qed.

Lemma exception_ends_the_run_witness :
  run json_loads (fun lexeme => lexeme)
    ([AssistantMessage [TextBlock "Counting."];
      ResultMessage VNone (Some (str_repeat "7" 4301))] ++
     [AssistantMessage [TextBlock "Never shown."];
      ResultMessage (VStr "late") None]) =
  (["Claude: Counting."], Raise ValueError).
Proof.
  rewrite (exception_ends_the_run json_loads (fun lexeme => lexeme)
             [AssistantMessage [TextBlock "Counting."];
              ResultMessage VNone (Some (str_repeat "7" 4301))]
             [AssistantMessage [TextBlock "Never shown."];
              ResultMessage (VStr "late") None] ValueError).
  - vm_compute. reflexivity.
  - vm_compute. reflexivity.
Defined.

(** ** More on the trace *)

Lemma contains_char_app (c : ascii) (a b : string) :
  contains_char c (a +:+ b) = contains_char c a || contains_char c b.
Proof.
  induction a as [| x a IH]; [done |].
  rewrite append_cons. cbn [contains_char]. by rewrite IH, orb_assoc.
Qed.

Lemma contains_char_take (c : ascii) (n : nat) (s : string) :
  contains_char c s = false -> contains_char c (str_take n s) = false.
Proof.
  revert s. induction n as [| n IH]; intros [| x s]; try done.
  cbn [contains_char str_take]. intros H. apply orb_false_iff in H as [Hx Hs].
  by rewrite Hx, IH.
Qed.

Lemma contains_char_drop (c : ascii) (n : nat) (s : string) :
  contains_char c s = false -> contains_char c (str_drop n s) = false.
Proof.
  revert s. induction n as [| n IH]; intros [| x s]; try done.
  cbn [contains_char str_drop]. intros H. apply orb_false_iff in H as [Hx Hs].
  by apply IH.
Qed.

Lemma length_replace_newlines (s : string) :
  String.length (replace_newlines s) <= 2 * String.length s.
Proof.
  induction s as [| c s IH]; [done |].
  cbn [replace_newlines]. destruct (Ascii.eqb c LF); simpl; lia.
Qed.

(** The line that shows a tool result whose content is a text holds no line
    feed: it is one line of the trace, whatever the content. *)
Theorem text_result_is_one_line (float_repr : string -> string) (s : string)
    (is_error : option bool) :
  contains_char LF (tool_result_line float_repr (VStr s) is_error) = false.
Proof.
  unfold tool_result_line, tool_result_display.
  rewrite !contains_char_app, replace_newlines_clean.
  by destruct is_error as [[|] |].
Qed.

Lemma replace_newlines_app (a b : string) :
  replace_newlines (a +:+ b) = replace_newlines a +:+ replace_newlines b.
Proof.
  induction a as [| c a IH]; [done |].
  rewrite append_cons. cbn [replace_newlines]. rewrite IH.
  by destruct (Ascii.eqb c LF).
Qed.

(** What is shown of a tool result is bounded whatever the content holds:
    at most 203 characters for a content that is not a text or that is a text
    without line feeds, at most 403 for any text (the cut comes first, and
    each of the 200 characters kept may be a line feed written as two); a
    text of 201 line feeds reaches the 403. *)
Theorem tool_result_display_bounded (float_repr : string -> string) :
  (forall s, String.length (tool_result_display float_repr (VStr s)) <= 403) /\
  (forall s, contains_char LF s = false ->
             String.length (tool_result_display float_repr (VStr s)) <= 203) /\
  (forall content, (forall s, content <> VStr s) ->
             String.length (tool_result_display float_repr content) <= 203) /\
  String.length (tool_result_display float_repr (VStr (str_repeat LF 201))) = 403.
Proof.
  assert (forall s, String.length
                      (if 200 <? String.length s
                       then str_take 100 s +:+ "..." +:+ str_last 100 s else s)
                    <= 203) as Hcut.
  { intros s. destruct (200 <? String.length s) eqn:E.
    - rewrite !length_append, length_str_take, length_str_last.
      change (String.length "...") with 3. lia.
    - apply Nat.ltb_ge in E. lia. }
  split; [| split; [| split]].
  - intros s. cbn [tool_result_display]. destruct (200 <? String.length s) eqn:E.
    + rewrite !replace_newlines_app, !length_append.
      pose proof (length_replace_newlines (str_take 100 s)) as H1.
      pose proof (length_replace_newlines (str_last 100 s)) as H2.
      rewrite length_str_take in H1. rewrite length_str_last in H2.
      change (String.length (replace_newlines "...")) with 3. lia.
    + apply Nat.ltb_ge in E. pose proof (length_replace_newlines s). lia.
  - intros s Hs. cbn [tool_result_display].
    rewrite replace_newlines_id; [apply Hcut |].
    destruct (200 <? String.length s); [| done].
    rewrite !contains_char_app, contains_char_take by done.
    unfold str_last. by rewrite contains_char_drop.
  - intros content Hc. rewrite (non_text_display_length _ _ Hc). lia.
  - vm_compute. reflexivity.
Qed.

Lemma tool_result_display_bounded_witness :
  String.length (tool_result_display (fun lexeme => lexeme) (VList [])) <= 203 /\
  String.length (tool_result_display (fun lexeme => lexeme)
                   (VStr (str_repeat "a" 300))) <= 203.
Proof.
  split.
  - refine (proj1 (proj2 (proj2 (tool_result_display_bounded (fun lexeme => lexeme))))
              (VList []) _).
    intros s. discriminate.
  - refine (proj1 (proj2 (tool_result_display_bounded (fun lexeme => lexeme)))
              (str_repeat "a" 300) _).
    vm_compute. reflexivity.
Defined.

Lemma replace_newlines_inj (s s' : string) :
  contains_char "\" s = false -> contains_char "\" s' = false ->
  replace_newlines s = replace_newlines s' -> s = s'.
Proof.
  revert s'. induction s as [| c s IH]; intros [| c' s']; cbn [replace_newlines].
  - done.
  - intros _ _. by destruct (Ascii.eqb c' LF).
  - intros _ _. by destruct (Ascii.eqb c LF).
  - cbn [contains_char]. intros H H'.
    apply orb_false_iff in H as [Hc Hs]. apply orb_false_iff in H' as [Hc' Hs'].
    destruct (Ascii.eqb c LF) eqn:E; destruct (Ascii.eqb c' LF) eqn:E'.
    + apply Ascii.eqb_eq in E, E'. subst c c'.
      intros [= H]. by rewrite (IH s' Hs Hs' H).
    + intros [= <- _]. by rewrite Ascii.eqb_refl in Hc'.
    + intros [= -> _]. by rewrite Ascii.eqb_refl in Hc.
    + intros [= -> H]. by rewrite (IH s' Hs Hs' H).
Qed.

Lemma str_drop_app (a b : string) : str_drop (String.length a) (a +:+ b) = b.
Proof. induction a as [| x a IH]; [by destruct b | exact IH]. Qed.

Lemma str_last_app (a b : string) : str_last (String.length b) (a +:+ b) = b.
Proof.
  unfold str_last. rewrite length_append.
  replace (String.length a + String.length b - String.length b)
    with (String.length a) by lia.
  apply str_drop_app.
Qed.

(** What the display of a text content tells of the content.  Two contents
    of at most 200 characters that hold no backslash and differ are shown
    differently.  Neither condition can go: a line feed and a backslash
    followed by [n] are shown alike, and of a content of more than 200
    characters nothing between the first hundred and the last hundred is
    shown. *)
Theorem short_texts_are_told_apart (float_repr : string -> string) :
  (forall s s',
     String.length s <= 200 -> String.length s' <= 200 ->
     contains_char "\" s = false -> contains_char "\" s' = false ->
     s <> s' ->
     tool_result_display float_repr (VStr s) <>
     tool_result_display float_repr (VStr s')) /\
  tool_result_display float_repr (VStr nl) =
  tool_result_display float_repr (VStr "\n") /\
  (forall a m m' b,
     String.length a = 100 -> String.length b = 100 -> m <> "" -> m' <> "" ->
     tool_result_display float_repr (VStr (a +:+ m +:+ b)) =
     tool_result_display float_repr (VStr (a +:+ m' +:+ b))).
Proof.
  split; [| split; [reflexivity |]].
  - intros s s' Hl Hl' Hb Hb' Hne H. apply Hne. cbn [tool_result_display] in H.
    apply Nat.ltb_ge in Hl, Hl'. rewrite Hl, Hl' in H.
    by apply replace_newlines_inj.
  - assert (forall a m b, String.length a = 100 -> String.length b = 100 ->
              m <> "" ->
              tool_result_display float_repr (VStr (a +:+ m +:+ b)) =
              replace_newlines (a +:+ "..." +:+ b)) as Hcut.
    { intros a m b Ha Hb Hm. cbn [tool_result_display].
      assert ((200 <? String.length (a +:+ m +:+ b)) = true) as ->.
      { apply Nat.ltb_lt. rewrite !length_append.
        destruct m; [done | simpl; lia]. }
      replace (str_take 100 (a +:+ m +:+ b)) with a
        by (rewrite <- Ha; symmetry; apply str_take_app).
      replace (str_last 100 (a +:+ m +:+ b)) with b; [done |].
      rewrite <- Hb, <- append_assoc. symmetry. apply str_last_app. }
    intros a m m' b Ha Hb Hm Hm'. by rewrite !Hcut.
Qed.

Lemma short_texts_are_told_apart_witness :
  tool_result_display (fun lexeme => lexeme) (VStr (lit "1 passed\n0 failed")) <>
  tool_result_display (fun lexeme => lexeme) (VStr "1 passed 0 failed").
Proof.
  refine (proj1 (short_texts_are_told_apart (fun lexeme => lexeme))
            (lit "1 passed\n0 failed") "1 passed 0 failed" _ _ _ _ _).
  - vm_compute. lia.
  - vm_compute. lia.
  - reflexivity.
  - reflexivity.
  - discriminate.
Defined.

Lemma list_sum_cons (a : nat) (l : list nat) :
  list_sum (a :: l) = a + list_sum l.
Proof. reflexivity. Qed.

Lemma length_concat_sep (sep : string) (l : list string) :
  String.length (String.concat sep l) <=
  list_sum (map (fun x => String.length x + String.length sep) l).
Proof.
  induction l as [| x [| y l] IH]; cbn [String.concat map] in *.
  - done.
  - rewrite list_sum_cons. lia.
  - rewrite !list_sum_cons in *. rewrite !length_append. lia.
Qed.

Lemma args_bounded (float_repr : string -> string) (input : dict) :
  list_sum (map (fun kv : string * value =>
                   String.length (fst kv +:+ "=" +:+
                                  str_take 50 (py_repr float_repr (snd kv))) + 2)
                input) <=
  list_sum (map (fun kv => String.length (fst kv) + 53) input).
Proof.
  induction input as [| kv input IH]; [done |].
  cbn [map]. rewrite !list_sum_cons, !length_append, length_str_take.
  change (String.length "=") with 1. lia.
Qed.

(** The line that shows a tool call is bounded by the names alone: its
    length is at most 9, the length of the tool name, and for each argument
    the length of its key and 53, however long the values are. *)
Theorem tool_use_line_bounded (float_repr : string -> string) (name : string)
    (input : dict) :
  String.length (tool_use_line float_repr name input) <=
  9 + String.length name +
  list_sum (map (fun kv => String.length (fst kv) + 53) input).
Proof.
  unfold tool_use_line. rewrite !length_append.
  pose proof (length_concat_sep ", "
                (map (fun kv => fst kv +:+ "=" +:+
                                str_take 50 (py_repr float_repr (snd kv))) input))
    as H.
  rewrite map_map in H. change (String.length ", ") with 2 in H.
  pose proof (args_bounded float_repr input) as H'.
  change (String.length "[TOOL] ") with 7. change (String.length "(") with 1.
  change (String.length ")") with 1. lia.
Qed.

(** ** More on [_parse_result_json] *)

Lemma search_group_no_backquote (text : string) :
  contains_char "`" text = false -> search_group fence_re text = None.
Proof.
  intros H. rewrite <- (append_nil_r text).
  by rewrite (search_group_skips text "" H).
Qed.

(** A text without a backquote has no fenced block: it goes straight to the
    whole text, which gives the decoded value when it decodes, the basic
    result when decoding raises [JSONDecodeError], and the exception when it
    raises another. *)
Theorem text_without_backquote (loads : string -> outcome value) (text : string) :
  contains_char "`" text = false ->
  _parse_result_json loads text = parse_raw_json loads text /\
  (forall v, loads (strip text) = Return v ->
             _parse_result_json loads text = Return v) /\
  (loads (strip text) = Raise JSONDecodeError ->
   _parse_result_json loads text = Return (basic_result text)) /\
  (forall e, e <> JSONDecodeError -> loads (strip text) = Raise e ->
             _parse_result_json loads text = Raise e).
Proof.
  intros H. apply search_group_no_backquote in H.
  assert (_parse_result_json loads text = parse_raw_json loads text) as E.
  { unfold _parse_result_json. by rewrite H. }
  rewrite E. unfold parse_raw_json. repeat split.
  - by intros v ->.
  - by intros ->.
  - intros e He ->. by destruct e.
Qed.

Lemma text_without_backquote_witness :
  _parse_result_json json_loads
    (lit "  {'status': false, 'summary': 's', 'insights': 'i'}\n") =
  Return (VDict [("status", VBool false); ("summary", VStr "s");
                 ("insights", VStr "i")]).
Proof.
  refine (proj1 (proj2 (text_without_backquote json_loads
            (lit "  {'status': false, 'summary': 's', 'insights': 'i'}\n") _)) _ _).
  - reflexivity.
  - vm_compute. reflexivity.
Defined.

(** ** The final report *)

Section ReportFacts.

Variable float_repr : string -> string.

Lemma report_line_found (d : dict) (label key : string) (lines : list string) :
  dict_has d key = true ->
  report_line float_repr (VDict d) label key lines =
  (lines ++ [label +:+ ": " +:+ py_str float_repr (dict_get d key)], None).
Proof. intros H. unfold report_line, subscript. by rewrite H. Qed.

Lemma report_line_missing (d : dict) (label key : string) (lines : list string) :
  dict_has d key = false ->
  report_line float_repr (VDict d) label key lines = (lines, Some (KeyError key)).
Proof. intros H. unfold report_line, subscript. by rewrite H. Qed.

Lemma dict_has_truthy (d : dict) (key : string) :
  dict_has d key = true -> truthy (VDict d) = true.
Proof. by destruct d. Qed.

End ReportFacts.

(** For a result that is a [dict] with the keys [status], [summary] and
    [insights], whatever else it holds, [main] prints the header and the
    three values, each as [str] gives it, and raises nothing. *)
Theorem report_of_a_record (float_repr : string -> string) (d : dict) :
  dict_has d "status" = true ->
  dict_has d "summary" = true ->
  dict_has d "insights" = true ->
  final_report float_repr (VDict d) =
  ([nl +:+ "--- FINAL AGENT REPORT ---";
    "SUCCESS: " +:+ py_str float_repr (dict_get d "status");
    "SUMMARY: " +:+ py_str float_repr (dict_get d "summary");
    "INSIGHTS: " +:+ py_str float_repr (dict_get d "insights")], None).
Proof.
  intros H1 H2 H3. unfold final_report.
  rewrite (dict_has_truthy d _ H1).
  by rewrite (report_line_found float_repr d _ _ _ H1),
             (report_line_found float_repr d _ _ _ H2),
             (report_line_found float_repr d _ _ _ H3).
Qed.

Lemma report_of_a_record_witness :
  final_report (fun lexeme => lexeme) (basic_result "All tests pass.") =
  ([nl +:+ "--- FINAL AGENT REPORT ---"; "SUCCESS: True";
    "SUMMARY: All tests pass."; "INSIGHTS: "], None).
Proof.
  apply (report_of_a_record (fun lexeme => lexeme)
           [("status", VBool true); ("summary", VStr "All tests pass.");
            ("insights", VStr "")]); reflexivity.
Defined.

(** The report is not guarded against a result of another shape: a falsy
    result ([None], an empty [dict], list or text, zero) prints nothing; a
    truthy result that is not a [dict] raises [TypeError] once the header is
    printed; and a [dict] that lacks one of the three keys raises [KeyError]
    at the first one it lacks, after the lines before it. *)
Theorem report_of_another_shape (float_repr : string -> string) (result : value) :
  (truthy result = false -> final_report float_repr result = ([], None)) /\
  (truthy result = true -> (forall d, result <> VDict d) ->
   final_report float_repr result =
   ([nl +:+ "--- FINAL AGENT REPORT ---"], Some (Raised TypeError))) /\
  (forall d, result = VDict d -> d <> [] ->
   (dict_has d "status" = false ->
    final_report float_repr result =
    ([nl +:+ "--- FINAL AGENT REPORT ---"], Some (KeyError "status"))) /\
   (dict_has d "status" = true -> dict_has d "summary" = false ->
    final_report float_repr result =
    ([nl +:+ "--- FINAL AGENT REPORT ---";
      "SUCCESS: " +:+ py_str float_repr (dict_get d "status")],
     Some (KeyError "summary"))) /\
   (dict_has d "status" = true -> dict_has d "summary" = true ->
    dict_has d "insights" = false ->
    final_report float_repr result =
    ([nl +:+ "--- FINAL AGENT REPORT ---";
      "SUCCESS: " +:+ py_str float_repr (dict_get d "status");
      "SUMMARY: " +:+ py_str float_repr (dict_get d "summary")],
     Some (KeyError "insights")))).
Proof.
  split; [| split].
  - intros H. unfold final_report. by rewrite H.
  - intros Ht Hd. unfold final_report. rewrite Ht.
    destruct result; try done. by destruct (Hd items).
  - intros d -> Hd.
    assert (truthy (VDict d) = true) as Ht by (by destruct d).
    unfold final_report. rewrite Ht. repeat split.
    + intros H1. by rewrite (report_line_missing float_repr d _ _ _ H1).
    + intros H1 H2.
      by rewrite (report_line_found float_repr d _ _ _ H1),
                 (report_line_missing float_repr d _ _ _ H2).
    + intros H1 H2 H3.
      by rewrite (report_line_found float_repr d _ _ _ H1),
                 (report_line_found float_repr d _ _ _ H2),
                 (report_line_missing float_repr d _ _ _ H3).
Qed.

Lemma report_of_another_shape_witness :
  final_report (fun lexeme => lexeme) (VDict [("status", VBool true)]) =
  ([nl +:+ "--- FINAL AGENT REPORT ---"; "SUCCESS: True"],
   Some (KeyError "summary")).
Proof.
  refine (proj1 (proj2 (proj2 (proj2 (report_of_another_shape
            (fun lexeme => lexeme) (VDict [("status", VBool true)])))
            [("status", VBool true)] eq_refl _)) _ _).
  - discriminate.
  - reflexivity.
  - reflexivity.
Defined.

(** ** [main] *)

Section MainFacts.

Variable resolve : string -> outcome Path.
Variable mkdir : string -> outcome unit.
Variable loads : string -> outcome value.
Variable float_repr : string -> string.

Lemma main_init (t : Path) (base : string) :
  mkdir base = Return tt ->
  resolve "workdir" = Return t ->
  init resolve mkdir "claude-sonnet-4-5" (Some ["workdir"]) (Some ["workdir"]) base =
  Return {| model_name := "claude-sonnet-4-5"; base_dir := base;
            readable_paths := list_to_set [t];
            writable_paths := list_to_set [t] |}.
Proof.
  intros Hm H. unfold init. cbn [or_empty map_outcome].
  by rewrite Hm, H, !bind_return.
Qed.

Lemma main_returning_run (root t : Path) (artifact_dir : string)
    (messages : list Message) (r : value) :
  resolve artifact_dir = Return root ->
  mkdir (path_text root) = Return tt ->
  resolve "workdir" = Return t ->
  snd (run loads float_repr messages) = Return r ->
  main resolve mkdir loads float_repr artifact_dir messages =
  (concat (map (message_lines float_repr) messages) ++
     fst (final_report float_repr r),
   snd (final_report float_repr r)).
Proof.
  intros Hroot Hm Ht Hr. unfold main.
  rewrite Hroot, (main_init t (path_text root) Hm Ht).
  pose proof (run_from_lines loads float_repr
                {| printed := []; final_result := VNone |} messages r Hr) as Hl.
  unfold run in *.
  destruct (run_from loads float_repr _ messages) as [trace [r' | e]];
    simpl in Hr, Hl; [| done].
  injection Hr as ->. subst trace.
  by destruct (final_report float_repr r).
Qed.

End MainFacts.

(** [main] without a result: when the artifact directory does not resolve,
    when it cannot be created, or when [workdir] does not resolve, [main]
    raises before anything is printed; when all three go through and the
    stream holds no result message, it prints the lines of the stream, no
    report, and raises nothing. *)
Theorem main_without_a_result (resolve : string -> outcome Path)
    (mkdir : string -> outcome unit) (loads : string -> outcome value)
    (float_repr : string -> string) (artifact_dir : string)
    (messages : list Message) :
  (forall e, resolve artifact_dir = Raise e ->
   main resolve mkdir loads float_repr artifact_dir messages =
   ([], Some (Raised e))) /\
  (forall root e, resolve artifact_dir = Return root ->
   mkdir (path_text root) = Raise e ->
   main resolve mkdir loads float_repr artifact_dir messages =
   ([], Some (Raised e))) /\
  (forall root e, resolve artifact_dir = Return root ->
   mkdir (path_text root) = Return tt -> resolve "workdir" = Raise e ->
   main resolve mkdir loads float_repr artifact_dir messages =
   ([], Some (Raised e))) /\
  (forall root t, resolve artifact_dir = Return root ->
   mkdir (path_text root) = Return tt -> resolve "workdir" = Return t ->
   (forall m, m ∈ messages -> forall A B, m <> ResultMessage A B) ->
   main resolve mkdir loads float_repr artifact_dir messages =
   (concat (map (message_lines float_repr) messages), None)).
Proof.
  split; [| split; [| split]].
  - intros e He. unfold main. by rewrite He.
  - intros root e Hroot He. unfold main, init. cbv zeta. by rewrite Hroot, He.
  - intros root e Hroot Hm He. unfold main, init. cbv zeta.
    cbn [or_empty map_outcome]. by rewrite Hroot, Hm, bind_return, He.
  - intros root t Hroot Hmk Ht Hm.
    rewrite (main_returning_run resolve mkdir loads float_repr root t artifact_dir
               messages VNone Hroot Hmk Ht).
    + cbn. by rewrite app_nil_r.
    + unfold run. by rewrite run_from_without_result.
Qed.

Lemma main_without_a_result_witness :
  main host_resolve host_mkdir json_loads (fun lexeme => lexeme) "artifacts"
    [AssistantMessage [TextBlock "Working."];
     UserMessage [ToolResultBlock (VStr "ok") None]] =
  (["Claude: Working."; "  -> [OK] ok"], None).
Proof.
  refine (proj2 (proj2 (proj2 (main_without_a_result host_resolve host_mkdir
            json_loads (fun lexeme => lexeme) "artifacts"
            [AssistantMessage [TextBlock "Working."];
             UserMessage [ToolResultBlock (VStr "ok") None]])))
            ["home"; "agent"; "artifacts"] ["home"; "agent"; "workdir"] _ _ _ _).
  - reflexivity.
  - reflexivity.
  - reflexivity.
  - intros m Hm A B ->.
    repeat (apply elem_of_cons in Hm as [Hm | Hm]; [discriminate |]).
    by apply elem_of_nil in Hm.
Defined.

(** [main] with a structured output: after a stream that returned, a result
    message that carries a structured output makes [main] print the lines of
    the stream and then the report of that output, whatever the stream had
    given before and whatever the raw text holds; what the report raises,
    [main] raises. *)
Theorem main_reports_the_structured_output (resolve : string -> outcome Path)
    (mkdir : string -> outcome unit) (loads : string -> outcome value)
    (float_repr : string -> string) (artifact_dir : string)
    (messages : list Message) (root t : Path) (r A : value) (B : option string) :
  resolve artifact_dir = Return root ->
  mkdir (path_text root) = Return tt ->
  resolve "workdir" = Return t ->
  snd (run loads float_repr messages) = Return r ->
  A <> VNone ->
  main resolve mkdir loads float_repr artifact_dir
    (messages ++ [ResultMessage A B]) =
  (concat (map (message_lines float_repr) messages) ++
     fst (final_report float_repr A),
   snd (final_report float_repr A)).
Proof.
  intros Hroot Hmk Ht Hr HA.
  rewrite (main_returning_run resolve mkdir loads float_repr root t artifact_dir
             (messages ++ [ResultMessage A B]) A Hroot Hmk Ht).
  - rewrite map_app, concat_app. cbn. by rewrite !app_nil_r.
  - unfold run in *. rewrite run_from_app.
    destruct (run_from loads float_repr _ messages) as [lines [r' | e]];
      simpl in Hr; [| done].
    cbn [run_from next_result]. by destruct A.
Qed.

Lemma main_reports_the_structured_output_witness :
  main host_resolve host_mkdir json_loads (fun lexeme => lexeme) "artifacts"
    ([AssistantMessage [TextBlock "Done."]] ++
     [ResultMessage (VList [VInt 1]) (Some "ignored")]) =
  (["Claude: Done."; nl +:+ "--- FINAL AGENT REPORT ---"],
   Some (Raised TypeError)).
Proof.
  apply (main_reports_the_structured_output host_resolve host_mkdir json_loads
           (fun lexeme => lexeme) "artifacts"
           [AssistantMessage [TextBlock "Done."]]
           ["home"; "agent"; "artifacts"] ["home"; "agent"; "workdir"]
           VNone (VList [VInt 1]) (Some "ignored")).
  - reflexivity.
  - reflexivity.
  - reflexivity.
  - reflexivity.
  - discriminate.
Defined.

(** ** A block that is not closed *)

Lemma drop_prefix_plain (p s r : string) :
  drop_prefix p s = Some r -> contains_char "`" s = false ->
  contains_char "`" r = false.
Proof.
  revert s. induction p as [| a p IH]; intros [| b s]; cbn [drop_prefix].
  - by intros [= <-].
  - by intros [= <-].
  - done.
  - destruct (Ascii.eqb a b); [| done]. intros H Hs.
    cbn [contains_char] in Hs. apply orb_false_iff in Hs as [_ Hs].
    by apply IH with s.
Qed.

Lemma star_greedy_plain {R : Type} (class : ascii -> bool)
    (k : string -> option R) :
  refuses_plain k -> refuses_plain (fun s => star_greedy class s k).
Proof.
  intros Hk s. induction s as [| c s IH]; intros Hs; cbn [star_greedy].
  - by apply Hk.
  - rewrite (Hk _ Hs). cbn [contains_char] in Hs.
    apply orb_false_iff in Hs as [_ Hs]. rewrite (IH Hs). by destruct (class c).
Qed.

Lemma star_lazy_plain {R : Type} (class : ascii -> bool)
    (k : string -> option R) :
  refuses_plain k -> refuses_plain (fun s => star_lazy class s k).
Proof.
  intros Hk s. induction s as [| c s IH]; intros Hs; cbn [star_lazy].
  - by rewrite (Hk _ Hs).
  - rewrite (Hk _ Hs). cbn [contains_char] in Hs.
    apply orb_false_iff in Hs as [_ Hs]. rewrite (IH Hs). by destruct (class c).
Qed.

(** No way of matching a regex on a text without a backquote leads to a
    text with one. *)
Lemma rmatch_plain {R : Type} (r : regex) (k : string -> option R) :
  refuses_plain k -> refuses_plain (fun s => rmatch r s k).
Proof.
  revert k. induction r as [text | r1 IH1 r2 IH2 | r IH | class | class];
    intros k Hk s Hs; cbn [rmatch].
  - destruct (drop_prefix text s) as [s' |] eqn:E; [| done].
    apply Hk. by apply drop_prefix_plain with text s.
  - apply (IH1 (fun s' => rmatch r2 s' k)); [| done]. by apply IH2.
  - rewrite (IH k Hk s Hs). by apply Hk.
  - by apply star_greedy_plain.
  - by apply star_lazy_plain.
Qed.

Lemma fence_refuses_plain {R : Type} (k : string -> option R) :
  refuses_plain (fun s => rmatch (Lit "```") s k).
Proof.
  intros [| c s] Hs; [done |]. cbn [rmatch drop_prefix].
  cbn [contains_char] in Hs. apply orb_false_iff in Hs as [Hc _].
  by rewrite Hc.
Qed.

Lemma after_refuses_plain {R : Type} (k : string -> string -> option R) :
  refuses_plain (fun s => rmatch (after fence_re) s (k s)).
Proof.
  change (after fence_re) with (Seq (Opt (Lit nl)) (Lit "```")).
  intros s Hs. rewrite rmatch_seq.
  by apply (rmatch_plain (Opt (Lit nl)) _ (fence_refuses_plain (k s))).
Qed.

(** After an opening fence, a text without a backquote closes no block. *)
Lemma match_group_unclosed (post : string) :
  contains_char "`" post = false ->
  match_group fence_re ("```" +:+ post) = None.
Proof.
  intros Hpost. unfold match_group.
  change (before fence_re) with
    (Seq (Lit "```") (Seq (Opt (Lit "json"))
       (Seq (Star py_isspace) (Opt (Lit nl))))).
  rewrite rmatch_seq, rmatch_lit_app.
  apply (rmatch_plain (Seq (Opt (Lit "json"))
           (Seq (Star py_isspace) (Opt (Lit nl))))); [| done].
  intros s1 Hs1.
  apply (rmatch_plain (inside fence_re)); [| done].
  apply (after_refuses_plain
           (fun s2 _ => Some (str_take (String.length s1 - String.length s2) s1))).
Qed.

Lemma match_group_short_fence (post : string) :
  contains_char "`" post = false ->
  match_group fence_re ("``" +:+ post) = None /\
  match_group fence_re ("`" +:+ post) = None.
Proof.
  intros Hpost. unfold match_group.
  change (before fence_re) with
    (Seq (Lit "```") (Seq (Opt (Lit "json"))
       (Seq (Star py_isspace) (Opt (Lit nl))))).
  rewrite !rmatch_seq.
  destruct post as [| c post].
  { split; reflexivity. }
  cbn [contains_char] in Hpost. apply orb_false_iff in Hpost as [Hc _].
  split.
  - change ("``" +:+ String c post) with (String "`" (String "`" (String c post))).
    rewrite !rmatch_lit_cons. rewrite Hc. reflexivity.
  - change ("`" +:+ String c post) with (String "`" (String c post)).
    rewrite !rmatch_lit_cons. rewrite Hc. reflexivity.
Qed.

Lemma search_group_unclosed (pre post : string) :
  contains_char "`" pre = false -> contains_char "`" post = false ->
  search_group fence_re (pre +:+ "```" +:+ post) = None.
Proof.
  intros Hpre Hpost. rewrite (search_group_skips pre _ Hpre).
  destruct (match_group_short_fence post Hpost) as [H2 H1].
  pose proof (match_group_unclosed post Hpost) as H3.
  change (match_group fence_re (String "`" (String "`" (String "`" post))) = None)
    in H3.
  change (match_group fence_re (String "`" (String "`" post)) = None) in H2.
  change (match_group fence_re (String "`" post) = None) in H1.
  change ("```" +:+ post) with (String "`" (String "`" (String "`" post))).
  cbn [search_group].
  rewrite H3.
  rewrite H2.
  rewrite H1.
  by apply search_group_no_backquote.
Qed.

(** An opening fence that is never closed makes no block: the text is
    handled as a whole, fence included, and when the whole does not decode
    the basic result carries it. *)
Theorem unclosed_block_is_no_block (loads : string -> outcome value)
    (pre post : string) :
  contains_char "`" pre = false -> contains_char "`" post = false ->
  _parse_result_json loads (pre +:+ "```" +:+ post) =
    parse_raw_json loads (pre +:+ "```" +:+ post) /\
  (loads (strip (pre +:+ "```" +:+ post)) = Raise JSONDecodeError ->
   _parse_result_json loads (pre +:+ "```" +:+ post) =
     Return (basic_result (pre +:+ "```" +:+ post))).
Proof.
  intros Hpre Hpost.
  assert (_parse_result_json loads (pre +:+ "```" +:+ post) =
          parse_raw_json loads (pre +:+ "```" +:+ post)) as E.
  { unfold _parse_result_json. by rewrite (search_group_unclosed pre post). }
  split; [done |]. rewrite E. unfold parse_raw_json. by intros ->.
Qed.

Lemma unclosed_block_is_no_block_witness :
  _parse_result_json json_loads ("Done: " +:+ "```" +:+ "json [1, 2]") =
  Return (basic_result ("Done: " +:+ "```" +:+ "json [1, 2]")).
Proof.
  refine (proj2 (unclosed_block_is_no_block json_loads "Done: " "json [1, 2]"
                   _ _) _).
  - reflexivity.
  - reflexivity.
  - vm_compute. reflexivity.
Defined.
